(** * florida_imate_details: the inmate-detail pipeline of [project.py]

    A shallow embedding of [fetch_inmate_details], [store_inmate_details],
    [fetch_and_display_inmate_details] and [fetch_and_store_inmate_details],
    together with the parts of the three libraries they call
    (Python's [str], BeautifulSoup's tree queries and the [update_one] of a
    MongoDB collection), followed by the properties of the natural-language
    specification stated on these definitions.

    Conventions.
    - Python strings are [string]; the characters are the code points below
      256, which covers the labels, markers and identifiers of the program.
    - A Python [dict] with string keys is a [gmap string _].
    - Code that may raise returns a [result]; code that also acts on the
      network, the database or the Tk event queue threads a [world].
    - The [logging] calls only append to [application.log]; they are left out. *)

From Stdlib Require Import String Ascii.
From stdpp Require Import base option list gmap strings.

Set Warnings "-register-all".

(** ** Python [str] operations used by the program *)

Module Str.

(** [str.isspace] on one character (code points below 256). *)
Definition isspace (c : ascii) : bool :=
  let n := nat_of_ascii c in
  (Nat.leb 9 n && Nat.leb n 13) || (Nat.leb 28 n && Nat.leb n 32)
  || Nat.eqb n 133 || Nat.eqb n 160.

Fixpoint lstrip (s : string) : string :=
  match s with
  | EmptyString => EmptyString
  | String c s' => if isspace c then lstrip s' else s
  end.

Fixpoint rstrip (s : string) : string :=
  match s with
  | EmptyString => EmptyString
  | String c s' =>
      match rstrip s' with
      | EmptyString => if isspace c then EmptyString else String c EmptyString
      | r => String c r
      end
  end.

(** [s.strip()] *)
Definition strip (s : string) : string := rstrip (lstrip s).

(** [pat in s] *)
Fixpoint contains (pat s : string) : bool :=
  String.prefix pat s
  || match s with
     | EmptyString => false
     | String _ s' => contains pat s'
     end.

(** [not s] for a string: only the empty string is falsy. *)
Definition is_empty (s : string) : bool :=
  match s with EmptyString => true | String _ _ => false end.

(** No leading whitespace: the first character, if any, is not a space. *)
Definition head_clean (s : string) : Prop :=
  match s with
  | EmptyString => True
  | String c _ => isspace c = false
  end.

(** The last character of a string. *)
Fixpoint last_char (s : string) : option ascii :=
  match s with
  | EmptyString => None
  | String c s' =>
      match s' with
      | EmptyString => Some c
      | String _ _ => last_char s'
      end
  end.

(** No trailing whitespace: the last character, if any, is not a space. *)
Definition tail_clean (s : string) : Prop :=
  match last_char s with
  | None => True
  | Some c => isspace c = false
  end.

(** A trimmed string: it neither starts nor ends with whitespace. This is
    stated on the characters of the string, without [strip]. *)
Definition trimmed (s : string) : Prop := head_clean s ∧ tail_clean s.

End Str.

(** ** The parse tree of BeautifulSoup and the queries the program makes *)

Module Bs4.

(** A parsed page: strings and tags; a tag has a name, an attribute
    dictionary and its contents in document order. The parser gives a string
    its class: [Text] is a plain [NavigableString]; [Special] is a string of
    one of the classes that [.text] leaves out (a comment, a declaration, or
    a string inside a [script], [style] or [template] tag). *)
Inductive node :=
| Text (s : string)
| Special (s : string)
| Tag (name : string) (attrs : gmap string string) (children : list node).

(** The root object returned by [BeautifulSoup(...)]. *)
Definition soup_of (top : list node) : node := Tag "[document]" ∅ top.

(** [tag.name == nm] *)
Definition named (nm : string) (n : node) : bool :=
  match n with
  | Tag x _ _ => bool_decide (x = nm)
  | Text _ | Special _ => false
  end.

(** [tag.get(key)] *)
Definition get (key : string) (n : node) : option string :=
  match n with
  | Tag _ a _ => a !! key
  | Text _ | Special _ => None
  end.

(** [tag.string]: the single string below a tag, through chains of single
    children; [None] when some tag on the way has no or several children. *)
Fixpoint string_of (n : node) : option string :=
  match n with
  | Text s | Special s => Some s
  | Tag _ _ [c] => string_of c
  | Tag _ _ _ => None
  end.

(** [tag.text]: the plain strings below a tag, concatenated in document
    order; the strings of the other classes are left out. *)
Fixpoint text (n : node) : string :=
  match n with
  | Text s => s
  | Special _ => EmptyString
  | Tag _ _ cs =>
      (fix go (l : list node) : string :=
         match l with
         | [] => EmptyString
         | c :: l' => text c +:+ go l'
         end) cs
  end.

(** An element as the program holds it: the tag and the siblings that
    follow it under its parent. *)
Definition element : Type := node * list node.

(** The tags at and below [n] in document order, each with its following
    siblings ([after] are those of [n] itself). *)
Fixpoint tags_from (n : node) (after : list node) : list element :=
  match n with
  | Text _ | Special _ => []
  | Tag _ _ cs =>
      (n, after) ::
      (fix go (l : list node) : list element :=
         match l with
         | [] => []
         | c :: l' => tags_from c l' ++ go l'
         end) cs
  end.

(** The tags strictly below [n]; this is what [find] and [find_all] search. *)
Definition descendants (n : node) : list element := tail (tags_from n []).

(** [tag.find_all(...)] for a predicate on tags. *)
Definition find_all (p : node -> bool) (root : node) : list element :=
  List.filter (fun e => p e.1) (descendants root).

(** [tag.find(...)]: the first match or [None]. *)
Definition find (p : node -> bool) (root : node) : option element :=
  head (find_all p root).

(** [tag.find_next_sibling(nm)] *)
Definition find_next_sibling (nm : string) (e : element) : option node :=
  List.find (named nm) e.2.

(** [find(nm, string=s)]: name [nm] and [.string] equal to [s]. *)
Definition with_string (nm s : string) (n : node) : bool :=
  named nm n && bool_decide (string_of n = Some s).

(** [find(nm, {'id': i})] *)
Definition with_id (nm i : string) (n : node) : bool :=
  named nm n && bool_decide (get "id" n = Some i).

(** [soup.title] *)
Definition title (soup : node) : option element := find (named "title") soup.

End Bs4.

Export Bs4.

(** ** Python values, exceptions and results *)

(** The values stored in an inmate dictionary: a string, or a list of row
    dictionaries (the two history tables). *)
Inductive value :=
| VStr (s : string)
| VRows (rows : list (gmap string string)).

#[global] Instance value_eq_dec : EqDecision value.
Proof. solve_decision. Defined.

(** A Python [dict] of inmate details, and a MongoDB document. *)
Abbreviation dict := (gmap string value).

(** What [fetch_inmate_details] returns: [None] or a dictionary. *)
Inductive pyval :=
| PNone
| PDict (d : dict).

(** [if v:] — [None] and the empty dictionary are falsy. *)
Definition truthy (v : pyval) : bool :=
  match v with
  | PNone => false
  | PDict d => negb (bool_decide (d = ∅))
  end.

(** A raised exception: its class name and [str(e)]. *)
Record pyexn := PyExn { exn_class : string; exn_str : string }.

(** [None.attr] *)
Definition AttributeError (attr : string) : pyexn :=
  PyExn "AttributeError" ("'NoneType' object has no attribute '" +:+ attr +:+ "'").

(** [x in None] *)
Definition TypeError : pyexn :=
  PyExn "TypeError" "argument of type 'NoneType' is not iterable".

(** [l[i]] past the end *)
Definition IndexError : pyexn := PyExn "IndexError" "list index out of range".

(** [d[k]] for a missing key *)
Definition KeyError (k : string) : pyexn := PyExn "KeyError" ("'" +:+ k +:+ "'").

Inductive result (A : Type) :=
| Ret (a : A)
| Raise (e : pyexn).
Arguments Ret {A} a.
Arguments Raise {A} e.

Definition rbind {A B} (r : result A) (k : A -> result B) : result B :=
  match r with
  | Ret a => k a
  | Raise e => Raise e
  end.

Declare Scope py_scope.
Delimit Scope py_scope with py.
Notation "x <~ r ; k" := (rbind r (fun x => k))
  (at level 100, r at next level, right associativity) : py_scope.
Local Open Scope py_scope.

(** Calling the method or attribute [attr] on the result of a search:
    [AttributeError] when the search found nothing. *)
Definition deref {A} (attr : string) (o : option A) : result A :=
  match o with
  | Some a => Ret a
  | None => Raise (AttributeError attr)
  end.

(** [columns[i]] *)
Definition index {A} (l : list A) (i : nat) : result A :=
  match l !! i with
  | Some a => Ret a
  | None => Raise IndexError
  end.

(** [for x in l: acc.append(f(x))], stopping at the first exception. *)
Fixpoint for_append {A B} (f : A -> result B) (l : list A) (acc : list B)
  : result (list B) :=
  match l with
  | [] => Ret acc
  | x :: l' => y <~ f x; for_append f l' (acc ++ [y])
  end.

(** ** [fetch_inmate_details]: from the parsed page to the dictionary *)

Definition MARKER : string := "Inmate Population Information Detail".
Definition DIV_CURRENT_PRISON : string := "ctl00_ContentPlaceHolder1_divCurrentPrison".
Definition DIV_ALIAS : string := "ctl00_ContentPlaceHolder1_divAlias".
Definition DIV_INCARCERATION : string := "ctl00_ContentPlaceHolder1_divIncarceration".

(** [cell.text.strip()] *)
Definition cell_text (e : element) : string := Str.strip (text e.1).

(** [th.find_next_sibling('td').text.strip()] *)
Definition sibling_value (th : element) : result string :=
  td <~ deref "text" (find_next_sibling "td" th);
  Ret (Str.strip (text td)).

(** [soup.find('th', string=label).find_next_sibling('td').text.strip()] *)
Definition labelled_value (soup : node) (label : string) : result string :=
  th <~ deref "find_next_sibling" (find (with_string "th" label) soup);
  sibling_value th.

(** The body of the loop over the rows of the sentence table. *)
Definition sentence_row (row : element) : result (gmap string string) :=
  let columns := find_all (named "td") row.1 in
  c0 <~ index columns 0;
  c1 <~ index columns 1;
  c2 <~ index columns 2;
  c3 <~ index columns 3;
  c4 <~ index columns 4;
  c5 <~ index columns 5;
  Ret (<["Prison Sentence Length" := cell_text c5]>
       (<["Case Number" := cell_text c4]>
       (<["County" := cell_text c3]>
       (<["Sentence Date" := cell_text c2]>
       (<["Offense" := cell_text c1]>
       (<["Offense Date" := cell_text c0]> ∅)))))).

(** The body of the loop over the rows of the incarceration table. *)
Definition incarceration_row (row : element) : result (gmap string string) :=
  let columns := find_all (named "td") row.1 in
  c0 <~ index columns 0;
  c1 <~ index columns 1;
  Ret (<["Date Out-Custody" := cell_text c1]>
       (<["Date In-Custody" := cell_text c0]> ∅)).

(** [soup.find('div', {'id': i}).find('table')] followed by
    [for row in table.find_all('tr')[1:]: ...append(body(row))]. *)
Definition history_of (soup : node) (i : string)
    (body : element -> result (gmap string string))
  : result (list (gmap string string)) :=
  div <~ deref "find" (find (with_id "div" i) soup);
  table <~ deref "find_all" (find (named "table") div.1);
  for_append body (tail (find_all (named "tr") table.1)) [].

(** Lines 53–113 of [project.py]: everything [fetch_inmate_details] does
    with the parsed response. *)
Definition inmate_details_of_soup (soup : node) (dc_number : string)
  : result pyval :=
  title_tag <~ deref "string" (title soup);
  match string_of title_tag.1 with
  | None => Raise TypeError
  | Some title_string =>
    if Str.contains MARKER title_string then
      match find (with_string "th" "Name:") soup with
      | Some name_element =>
          name <~ sibling_value name_element;
          race <~ labelled_value soup "Race:";
          sex <~ labelled_value soup "Sex:";
          birth <~ labelled_value soup "Birth Date:";
          let inmate_info : dict :=
            <["Birth Date" := VStr birth]>
            (<["Sex" := VStr sex]>
            (<["Race" := VStr race]>
            (<["Name" := VStr name]>
            (<["DC Number" := VStr dc_number]> ∅)))) in
          if Str.is_empty name || Str.is_empty race then Ret PNone
          else
            sentence_history <~ history_of soup DIV_CURRENT_PRISON sentence_row;
            let inmate_info :=
              <["Current Prison Sentence History" := VRows sentence_history]>
              inmate_info in
            alias_div <~ deref "find" (find (with_id "div" DIV_ALIAS) soup);
            p <~ deref "text" (find (named "p") alias_div.1);
            let aliases := Str.strip (text p.1) in
            let inmate_info := <["Aliases" := VStr aliases]> inmate_info in
            incarceration_history <~
              history_of soup DIV_INCARCERATION incarceration_row;
            let inmate_info :=
              <["Incarceration History" := VRows incarceration_history]>
              inmate_info in
            Ret (PDict inmate_info)
      | None => Ret PNone
      end
    else Ret (PDict ∅)
  end.

(** ** The MongoDB collection and [update_one] *)

Module Mongo.

(** A document is kept by the fields the application writes; the [_id] the
    server adds on insertion is never read or written by the program and is
    not represented. A collection is the list of its documents in natural
    order. *)

(** The filter [{k: v}]. *)
Definition matches (k : string) (v : value) (doc : dict) : bool :=
  bool_decide (doc !! k = Some v).

(** The update [{'$set': upd}]: the fields of [upd] are written, every other
    field of the document stays. This is what the store does for field names
    that are plain (see [plain_key]); the program only writes the eight
    field names of a record, which are. *)
Definition set_fields (upd doc : dict) : dict := upd ∪ doc.

(** Apply the update to the first document that matches the filter. *)
Fixpoint update_first (k : string) (v : value) (upd : dict) (docs : list dict)
  : option (list dict) :=
  match docs with
  | [] => None
  | d :: ds =>
      if matches k v d then Some (set_fields upd d :: ds)
      else (d ::.) <$> update_first k v upd ds
  end.

(** [collection.update_one({k: v}, {'$set': upd}, upsert=upsert)]: without a
    match and with [upsert], a document made of the filter's field and the
    update is inserted. *)
Definition update_one (k : string) (v : value) (upd : dict) (upsert : bool)
    (docs : list dict) : list dict :=
  match update_first k v upd docs with
  | Some docs' => docs'
  | None => if upsert then docs ++ [set_fields upd {[ k := v ]}] else docs
  end.

(** The documents a filter selects. *)
Definition find_docs (k : string) (v : value) (docs : list dict) : list dict :=
  List.filter (matches k v) docs.

End Mongo.

(** ** The world the program acts on *)

(** A call on the presentation layer. *)
Inductive gui_call :=
| Display (details : dict)               (* display_inmate_details(details) *)
| ShowError (title message : string)     (* messagebox.showerror *)
| ShowWarning (title message : string).  (* messagebox.showwarning *)

(** A callback handed to [root.after(0, ...)] by the thread. *)
Inductive callback :=
| CbDisplay (details : dict)
    (* display_inmate_details, inmate_details *)
| CbFailed
    (* lambda: messagebox.showerror("Error", "Failed to retrieve valid inmate details.") *)
| CbError (e : pyexn).
    (* lambda: messagebox.showerror("Error", f"An error occurred: {e}"),
       closed over the variable e of the except clause *)

Record world := World {
  (** what [requests.get(url)] answers: the parsed page, or the exception *)
  responses : string -> result node;
  (** the URLs requested so far *)
  requested : list string;
  (** the documents of the collection *)
  collection : list dict;
  (** the exception the driver raises when the server is unreachable or
      rejects the write; [None] when the store works *)
  store_fault : option pyexn;
  (** the number of [update_one] calls issued *)
  update_calls : nat;
  (** the [dc_number] arguments of the threads started and not yet run *)
  threads : list string;
  (** the callbacks queued with [root.after(0, ...)], oldest first *)
  after_queue : list callback;
  (** the calls made on the presentation layer, oldest first *)
  screen : list gui_call;
}.

Definition set_requested (f : list string -> list string) (w : world) : world :=
  World (responses w) (f (requested w)) (collection w) (store_fault w)
        (update_calls w) (threads w) (after_queue w) (screen w).
Definition set_collection (f : list dict -> list dict) (w : world) : world :=
  World (responses w) (requested w) (f (collection w)) (store_fault w)
        (update_calls w) (threads w) (after_queue w) (screen w).
Definition set_update_calls (f : nat -> nat) (w : world) : world :=
  World (responses w) (requested w) (collection w) (store_fault w)
        (f (update_calls w)) (threads w) (after_queue w) (screen w).
Definition set_threads (f : list string -> list string) (w : world) : world :=
  World (responses w) (requested w) (collection w) (store_fault w)
        (update_calls w) (f (threads w)) (after_queue w) (screen w).
Definition set_after_queue (f : list callback -> list callback) (w : world) : world :=
  World (responses w) (requested w) (collection w) (store_fault w)
        (update_calls w) (threads w) (f (after_queue w)) (screen w).
Definition set_screen (f : list gui_call -> list gui_call) (w : world) : world :=
  World (responses w) (requested w) (collection w) (store_fault w)
        (update_calls w) (threads w) (after_queue w) (f (screen w)).

(** A computation that may raise and acts on the world; the world is kept
    when an exception is raised. *)
Definition io (A : Type) : Type := world -> result A * world.

Definition io_ret {A} (a : A) : io A := fun w => (Ret a, w).
Definition io_raise {A} (e : pyexn) : io A := fun w => (Raise e, w).
Definition io_lift {A} (r : result A) : io A := fun w => (r, w).
Definition io_bind {A B} (m : io A) (k : A -> io B) : io B :=
  fun w =>
    match m w with
    | (Ret a, w') => k a w'
    | (Raise e, w') => (Raise e, w')
    end.
(** [try: m except Exception as e: h(e)] *)
Definition io_try {A} (m : io A) (h : pyexn -> io A) : io A :=
  fun w =>
    match m w with
    | (Ret a, w') => (Ret a, w')
    | (Raise e, w') => h e w'
    end.
Definition io_modify (f : world -> world) : io unit := fun w => (Ret tt, f w).

Declare Scope io_scope.
Delimit Scope io_scope with io.
Notation "x <- m ;; k" := (io_bind m (fun x => k))
  (at level 100, m at next level, right associativity) : io_scope.
Notation "m ;; k" := (io_bind m (fun _ => k))
  (at level 100, right associativity) : io_scope.

(** [requests.get(url)] followed by [BeautifulSoup(response.content, 'html.parser')] *)
Definition requests_get (url : string) : io node :=
  fun w => (responses w url, set_requested (fun l => l ++ [url]) w).

(** [collection.update_one({k: v}, {'$set': upd}, upsert=True)] on the
    server, which may be down. *)
Definition collection_update_one (k : string) (v : value) (upd : dict) : io unit :=
  fun w =>
    let w1 := set_update_calls S w in
    match store_fault w with
    | Some e => (Raise e, w1)
    | None => (Ret tt, set_collection (Mongo.update_one k v upd true) w1)
    end.

(** [root.after(0, callback)] *)
Definition root_after (cb : callback) : io unit :=
  io_modify (set_after_queue (fun q => q ++ [cb])).

(** ** The four functions of the program *)

Definition detail_url (dc_number : string) : string :=
  "https://pubapps.fdc.myflorida.com/offenderSearch/detail.aspx?Page=Detail&DCNumber="
  +:+ dc_number +:+ "&TypeSearch=AI".

Definition fetch_inmate_details (dc_number : string) : io pyval :=
  (soup <- requests_get (detail_url dc_number);;
   io_lift (inmate_details_of_soup soup dc_number))%io.

Definition store_inmate_details (inmate_info : dict) : io unit :=
  match inmate_info !! "DC Number" with
  | None => io_raise (KeyError "DC Number")
  | Some dc =>
      io_try (collection_update_one "DC Number" dc inmate_info)
             (fun _ => io_ret tt)
  end.

(** The button command; [dc_number] is [dc_number_entry.get()]. It runs in
    the presentation context and returns nothing. *)
Definition fetch_and_display_inmate_details (dc_number : string) (w : world)
  : world :=
  if Str.is_empty dc_number then
    set_screen (fun s => s ++ [ShowWarning "Input Error" "Please enter a DC number."]) w
  else set_threads (fun t => t ++ [dc_number]) w.

(** The thread's target. [if inmate_details:] is false for [None] and for
    the empty dictionary. *)
Definition fetch_and_store_inmate_details (dc_number : string) : io unit :=
  io_try
    (inmate_details <- fetch_inmate_details dc_number;;
     match inmate_details with
     | PDict d =>
         if truthy inmate_details then
           (store_inmate_details d;; root_after (CbDisplay d))%io
         else root_after CbFailed
     | PNone => root_after CbFailed
     end)%io
    (fun e => root_after (CbError e)).

(** The scheduler runs the oldest started thread to its end. *)
Definition run_thread (w : world) : world :=
  match threads w with
  | [] => w
  | dc :: rest => (fetch_and_store_inmate_details dc (set_threads (fun _ => rest) w)).2
  end.

(** The Tk main loop takes the oldest queued callback and runs it in the
    presentation context. The lambda of the except clause reads the variable
    [e] when it runs; Python unbinds [e] when the except clause is left, so
    the dialog appears only if the callback runs before the thread has left
    the clause, and otherwise the call ends in a [NameError] that Tk reports
    on the error stream. Both orders are possible. *)
Inductive mainloop_step : world -> world -> Prop :=
| run_display w d q :
    after_queue w = CbDisplay d :: q ->
    mainloop_step w
      (set_screen (fun s => s ++ [Display d]) (set_after_queue (fun _ => q) w))
| run_failed w q :
    after_queue w = CbFailed :: q ->
    mainloop_step w
      (set_screen
         (fun s => s ++ [ShowError "Error" "Failed to retrieve valid inmate details."])
         (set_after_queue (fun _ => q) w))
| run_error_bound w e q :
    after_queue w = CbError e :: q ->
    mainloop_step w
      (set_screen
         (fun s => s ++ [ShowError "Error" ("An error occurred: " +:+ exn_str e)])
         (set_after_queue (fun _ => q) w))
| run_error_unbound w e q :
    after_queue w = CbError e :: q ->
    mainloop_step w (set_after_queue (fun _ => q) w).

(** ** Test pages *)

Module Pages.

Definition tag (name : string) (children : list node) : node := Tag name ∅ children.
Definition div (i : string) (children : list node) : node :=
  Tag "div" {[ "id" := i ]} children.
Definition field (label v : string) : node :=
  tag "tr" [tag "th" [Text label]; tag "td" [Text v]].
Definition cells (name : string) (l : list string) : node :=
  tag "tr" ((fun s => tag name [Text s]) <$> l).
Definition page (title_text : string) (body : list node) : node :=
  soup_of [tag "html" [tag "head" [tag "title" [Text title_text]]; tag "body" body]].

Definition sentence_header : node :=
  cells "th" ["Offense Date"; "Offense"; "Sentence Date"; "County";
              "Case Number"; "Prison Sentence Length"].
Definition incarceration_header : node :=
  cells "th" ["Date In-Custody"; "Date Out-Custody"].

(** Scenario A: Jane Doe, one sentence row, no incarceration row. *)
Definition jane_page : node :=
  page "Inmate Population Information Detail"
    [ tag "table"
        [ field "Name:" " Jane Doe "; field "Race:" "White";
          field "Sex:" "Female"; field "Birth Date:" "1/1/1980" ];
      div DIV_CURRENT_PRISON
        [ tag "table"
            [ sentence_header;
              cells "td" ["1/1/2000"; "Theft"; "2/1/2000"; "Dade"; "00-1"; " 5 Years"] ] ];
      div DIV_ALIAS [ tag "p" [Text "Jane D. "] ];
      div DIV_INCARCERATION [ tag "table" [ incarceration_header ] ] ].

Definition jane_sentence : gmap string string :=
  <["Prison Sentence Length" := "5 Years"]>
  (<["Case Number" := "00-1"]>
  (<["County" := "Dade"]>
  (<["Sentence Date" := "2/1/2000"]>
  (<["Offense" := "Theft"]>
  (<["Offense Date" := "1/1/2000"]> ∅))))).

Definition jane_record : dict :=
  <["Incarceration History" := VRows []]>
  (<["Aliases" := VStr "Jane D."]>
  (<["Current Prison Sentence History" := VRows [jane_sentence]]>
  (<["Birth Date" := VStr "1/1/1980"]>
  (<["Sex" := VStr "Female"]>
  (<["Race" := VStr "White"]>
  (<["Name" := VStr "Jane Doe"]>
  (<["DC Number" := VStr "123456"]> ∅))))))).

(** A page that is not a detail page: the search form. *)
Definition not_found_page : node :=
  page "Offender Search" [ tag "p" [Text "No records found."] ].

(** A response without any title. *)
Definition no_title_page : node := soup_of [ Text "Service Unavailable" ].

(** Scenario C: the detail page without the [Race] row. *)
Definition no_race_page : node :=
  page "Inmate Population Information Detail"
    [ tag "table"
        [ field "Name:" "Jane Doe"; field "Sex:" "Female";
          field "Birth Date:" "1/1/1980" ] ].

(** The detail page of Scenario A without the alias block. *)
Definition no_alias_page : node :=
  page "Inmate Population Information Detail"
    [ tag "table"
        [ field "Name:" "Jane Doe"; field "Race:" "White";
          field "Sex:" "Female"; field "Birth Date:" "1/1/1980" ];
      div DIV_CURRENT_PRISON
        [ tag "table"
            [ sentence_header;
              cells "td" ["1/1/2000"; "Theft"; "2/1/2000"; "Dade"; "00-1"; "5 Years"] ] ];
      div DIV_INCARCERATION [ tag "table" [ incarceration_header ] ] ].

(** The page of Scenario A with a seventh cell in the sentence row, a third
    cell in an incarceration row, and an empty alias paragraph. *)
Definition wide_page : node :=
  page "Inmate Population Information Detail"
    [ tag "table"
        [ field "Name:" "Jane Doe"; field "Race:" "White";
          field "Sex:" "Female"; field "Birth Date:" "1/1/1980" ];
      div DIV_CURRENT_PRISON
        [ tag "table"
            [ sentence_header;
              cells "td" ["1/1/2000"; "Theft"; "2/1/2000"; "Dade"; "00-1"; "5 Years";
                          "Released"] ] ];
      div DIV_ALIAS [ tag "p" [Text "  "] ];
      div DIV_INCARCERATION [ tag "table" [ incarceration_header ] ] ].

(** The page of Scenario A with a second sentence row of three cells. *)
Definition short_row_page : node :=
  page "Inmate Population Information Detail"
    [ tag "table"
        [ field "Name:" "Jane Doe"; field "Race:" "White";
          field "Sex:" "Female"; field "Birth Date:" "1/1/1980" ];
      div DIV_CURRENT_PRISON
        [ tag "table"
            [ sentence_header;
              cells "td" ["1/1/2000"; "Theft"; "2/1/2000"; "Dade"; "00-1"; "5 Years"];
              cells "td" ["3/1/2001"; "Fraud"; "4/1/2001"] ] ];
      div DIV_ALIAS [ tag "p" [Text "Jane D."] ];
      div DIV_INCARCERATION [ tag "table" [ incarceration_header ] ] ].

(** The detail page with a [Name] cell of spaces. *)
Definition blank_name_page : node :=
  page "Inmate Population Information Detail"
    [ tag "table"
        [ field "Name:" "   "; field "Race:" "White";
          field "Sex:" "Female"; field "Birth Date:" "1/1/1980" ] ].

(** The page of Scenario A with a style sheet in the [Name] cell and a
    comment in the alias paragraph. *)
Definition styled_page : node :=
  page "Inmate Population Information Detail"
    [ tag "table"
        [ tag "tr" [tag "th" [Text "Name:"];
                    tag "td" [tag "style" [Special "b{}"]; Text " Jane Doe"]];
          field "Race:" "White"; field "Sex:" "Female";
          field "Birth Date:" "1/1/1980" ];
      div DIV_CURRENT_PRISON
        [ tag "table"
            [ sentence_header;
              cells "td" ["1/1/2000"; "Theft"; "2/1/2000"; "Dade"; "00-1"; "5 Years"] ] ];
      div DIV_ALIAS [ tag "p" [Special "alias"; Text "Jane D."] ];
      div DIV_INCARCERATION [ tag "table" [ incarceration_header ] ] ].

(** A site that serves [page] for the key [dc] and is unreachable for any
    other address. *)
Definition serve (dc : string) (page : node) : string -> result node :=
  fun url =>
    if bool_decide (url = detail_url dc) then Ret page
    else Raise (PyExn "ConnectionError" "Max retries exceeded").

(** The program at rest: nothing requested, stored, started, queued or
    shown. *)
Definition idle (site : string -> result node) (fault : option pyexn) : world :=
  World site [] [] fault 0 [] [] [].

Definition server_down : pyexn :=
  PyExn "ServerSelectionTimeoutError" "localhost:27017: connection refused".

(** Two dictionaries with the same key and different fields. *)
Definition with_alias : dict :=
  <["Aliases" := VStr "Jane D."]>
  (<["Name" := VStr "Jane Doe"]> (<["DC Number" := VStr "123456"]> ∅)).
Definition without_alias : dict :=
  <["Name" := VStr "Jane Roe"]> (<["DC Number" := VStr "123456"]> ∅).

End Pages.

(** ** Vocabulary of the specification *)

(** The text of the page title, when the page has a title with a single
    string. *)
Definition title_string (soup : node) : option string :=
  e ← title soup; string_of e.1.

(** The page bears the detail-page marker: its title text holds the token. *)
Definition has_marker (soup : node) : Prop :=
  ∃ s, title_string soup = Some s ∧ Str.contains MARKER s = true.

Definition lacks_marker (soup : node) : Prop := ¬ has_marker soup.

(** The trimmed value next to a label, when both the label cell and a value
    cell after it exist. *)
Definition field_value (soup : node) (label : string) : option string :=
  th ← find (with_string "th" label) soup;
  td ← find_next_sibling "td" th;
  Some (Str.strip (text td)).

(** A field is absent or empty. *)
Definition missing (o : option string) : Prop := o = None ∨ o = Some EmptyString.

(** The rows after the header row of the table in the section [i]. *)
Definition table_rows (soup : node) (i : string) : option (list element) :=
  d ← find (with_id "div" i) soup;
  t ← find (named "table") d.1;
  Some (tail (find_all (named "tr") t.1)).

(** The alias block is the section with the alias anchor. *)
Definition alias_block (soup : node) : option element :=
  find (with_id "div" DIV_ALIAS) soup.

(** The trimmed text of the paragraph of the alias block. *)
Definition alias_text (soup : node) : option string :=
  d ← alias_block soup;
  p ← find (named "p") d.1;
  Some (Str.strip (text p.1)).

Definition sentence_schema : list string :=
  ["Offense Date"; "Offense"; "Sentence Date"; "County"; "Case Number";
   "Prison Sentence Length"].

Definition incarceration_schema : list string :=
  ["Date In-Custody"; "Date Out-Custody"].

(** A row mapped positionally into a schema: the i-th column name gets the
    trimmed text of the i-th cell. *)
Definition positional (schema : list string) (row : element) : gmap string string :=
  list_to_map (zip schema (cell_text <$> find_all (named "td") row.1)).

(** Every row has exactly [n] cells. *)
Definition rows_of_width (n : nat) (rows : list element) : Prop :=
  Forall (fun row => length (find_all (named "td") row.1) = n) rows.

(** A well-formed detail page: the marker, the four labelled fields with
    [Name] and [Race] not empty, the two tables with rows of the width of
    their schema, and the alias paragraph. *)
Definition well_formed (soup : node) : Prop :=
  has_marker soup
  ∧ (∃ name, field_value soup "Name:" = Some name ∧ name ≠ EmptyString)
  ∧ (∃ race, field_value soup "Race:" = Some race ∧ race ≠ EmptyString)
  ∧ is_Some (field_value soup "Sex:")
  ∧ is_Some (field_value soup "Birth Date:")
  ∧ (∃ rows, table_rows soup DIV_CURRENT_PRISON = Some rows ∧ rows_of_width 6 rows)
  ∧ is_Some (alias_text soup)
  ∧ (∃ rows, table_rows soup DIV_INCARCERATION = Some rows ∧ rows_of_width 2 rows).

(** The record the specification describes for a page and a key. *)
Definition expected_record (soup : node) (dc_number : string) : dict :=
  let scalar label := VStr (default EmptyString (field_value soup label)) in
  let history i schema :=
    VRows (positional schema <$> default [] (table_rows soup i)) in
  list_to_map
    [ ("DC Number", VStr dc_number);
      ("Name", scalar "Name:");
      ("Race", scalar "Race:");
      ("Sex", scalar "Sex:");
      ("Birth Date", scalar "Birth Date:");
      ("Aliases", VStr (default EmptyString (alias_text soup)));
      ("Current Prison Sentence History", history DIV_CURRENT_PRISON sentence_schema);
      ("Incarceration History", history DIV_INCARCERATION incarceration_schema) ].

(** A failure of the named kind. *)
Definition typed_failure {A} (kind : string) (r : result A) : Prop :=
  ∃ msg, r = Raise (PyExn kind msg).

(** The extraction hands back a record: a dictionary that is not empty. *)
Definition yields_record (r : result pyval) : Prop :=
  ∃ d, r = Ret (PDict d) ∧ d ≠ ∅.

(** The scalar fields that extraction reads from the page. *)
Definition scalar_fields : list string :=
  ["Name"; "Race"; "Sex"; "Birth Date"; "Aliases"].

Definition history_fields : list string :=
  ["Current Prison Sentence History"; "Incarceration History"].

(** Every string of a record that extraction read from the page is trimmed. *)
Definition record_trimmed (d : dict) : Prop :=
  (∀ f, f ∈ scalar_fields → ∃ s, d !! f = Some (VStr s) ∧ Str.trimmed s)
  ∧ (∀ f, f ∈ history_fields →
       ∃ rows, d !! f = Some (VRows rows)
               ∧ Forall (fun row : gmap string string =>
                           ∀ k s, row !! k = Some s → Str.trimmed s) rows).

(** The first document stored under a key. *)
Definition find_one (v : value) (docs : list dict) : option dict :=
  head (Mongo.find_docs "DC Number" v docs).

(** Every cell of a history entry is trimmed. *)
Definition row_trimmed (row : gmap string string) : Prop :=
  ∀ k s, row !! k = Some s → Str.trimmed s.

(** The dictionary assembled on the success path. *)
Definition assembled (dc_number name race sex birth aliases : string)
    (sentence_history incarceration_history : list (gmap string string)) : dict :=
  <["Incarceration History" := VRows incarceration_history]>
  (<["Aliases" := VStr aliases]>
  (<["Current Prison Sentence History" := VRows sentence_history]>
  (<["Birth Date" := VStr birth]>
  (<["Sex" := VStr sex]>
  (<["Race" := VStr race]>
  (<["Name" := VStr name]>
  (<["DC Number" := VStr dc_number]> ∅))))))).

(** The world after [root.after(0, cb)]. *)
Definition enqueue (cb : callback) (w : world) : world :=
  set_after_queue (fun q => q ++ [cb]) w.

(** The world after the request for the page of a key. *)
Definition note_request (dc_number : string) (w : world) : world :=
  set_requested (fun l => l ++ [detail_url dc_number]) w.

(** The world after [store_inmate_details] was called with a dictionary that
    has its key: one [update_one] call, applied when the store works. *)
Definition stored (k : value) (d : dict) (w : world) : world :=
  let w1 := set_update_calls S w in
  match store_fault w with
  | Some _ => w1
  | None => set_collection (Mongo.update_one "DC Number" k d true) w1
  end.

(** ** [display_inmate_details] and the widgets of [details_frame] *)

Module Tk.

(** Where [grid(column=, row=, columnspan=)] puts a widget. The options that
    only style a widget ([sticky], [pady], [width], [stretch], [height],
    [show]) and the column weights set at the end are left out. *)
Record place := Place { p_column : nat; p_row : nat; p_span : nat }.

(** The children of [details_frame]: a label with its text, or a tree view
    with its columns and the lines inserted so far. A label is created and
    placed in one expression; a tree view is placed only after its lines
    were inserted. *)
Inductive widget :=
| Label (text : string) (at_cell : place)
| Treeview (columns : list string) (lines : list (list string))
           (at_cell : option place).

Abbreviation frame := (list widget).

End Tk.

Export Tk.

(** The items of a dictionary in insertion order, which is the order in
    which [details.items()] yields them. *)
Abbreviation odict := (list (string * value)).

(** [details[key]], and [key in details] when it is not [None]. *)
Fixpoint item_get (key : string) (details : odict) : option value :=
  match details with
  | [] => None
  | (k, v) :: rest => if bool_decide (k = key) then Some v else item_get key rest
  end.

(** The column lists of lines 170 and 186. *)
Definition sentence_columns : list string :=
  ["Offense Date"; "Offense"; "Sentence Date"; "County"; "Case Number";
   "Prison Sentence Length"].
Definition incarceration_columns : list string :=
  ["Date In-Custody"; "Date Out-Custody"].

(** [item[col]] for a string [item] *)
Definition StrIndexError : pyexn :=
  PyExn "TypeError" "string indices must be integers, not 'str'".

(** [[item[col] for col in columns]] *)
Fixpoint line_of (item : gmap string string) (columns : list string)
  : result (list string) :=
  match columns with
  | [] => Ret []
  | col :: cols =>
      match item !! col with
      | None => Raise (KeyError col)
      | Some v => rbind (line_of item cols) (fun vs => Ret (v :: vs))
      end
  end.

(** [for item in rows: tree.insert('', tk.END, values=[...])]: the lines of
    the tree afterwards, and the exception that stopped the loop, if any. *)
Fixpoint insert_lines (columns : list string) (rows : list (gmap string string))
    (lines : list (list string)) : list (list string) * option pyexn :=
  match rows with
  | [] => (lines, None)
  | item :: rest =>
      match line_of item columns with
      | Ret vs => insert_lines columns rest (lines ++ [vs])
      | Raise e => (lines, Some e)
      end
  end.

(** The first loop of [display_inmate_details]: a pair of labels per entry
    that is not a list, on rows counted from [r]. *)
Fixpoint scalar_labels (items : odict) (r : nat) (fr : frame) : frame * nat :=
  match items with
  | [] => (fr, r)
  | (key, VRows _) :: rest => scalar_labels rest r fr
  | (key, VStr s) :: rest =>
      scalar_labels rest (S r)
        (fr ++ [Label (key +:+ ":") (Place 0 r 1); Label s (Place 1 r 1)])
  end.

(** One of the two blocks [if key in details: ...]: the heading, then the
    tree with one line per item, placed under the heading over two columns.
    A string under the key is iterated by characters, and indexing a
    character by a column name raises. *)
Definition history_table (details : odict) (key : string) (columns : list string)
    (st : frame * nat) : result unit * (frame * nat) :=
  match item_get key details with
  | None => (Ret tt, st)
  | Some v =>
      let fr1 := st.1 ++ [Label (key +:+ ":") (Place 0 st.2 1)] in
      let r1 := S st.2 in
      let placed lines :=
        (Ret tt, (fr1 ++ [Treeview columns lines (Some (Place 0 r1 2))], S r1)) in
      let stopped e lines :=
        (Raise e, (fr1 ++ [Treeview columns lines None], r1)) in
      match v with
      | VRows rows =>
          match insert_lines columns rows [] with
          | (lines, None) => placed lines
          | (lines, Some e) => stopped e lines
          end
      | VStr s =>
          match s, columns with
          | EmptyString, _ => placed []
          | String _ _, [] => placed (replicate (String.length s) [])
          | String _ _, _ :: _ => stopped StrIndexError []
          end
      end
  end.

(** [display_inmate_details(details)] on the frame [fr]: the children of the
    frame are destroyed first. The result is the new content of the frame,
    also when an exception stops the function. *)
Definition display_inmate_details (details : odict) (fr : frame)
  : result unit * frame :=
  let st := scalar_labels details 0 [] in
  match history_table details "Current Prison Sentence History" sentence_columns st with
  | (Raise e, st1) => (Raise e, st1.1)
  | (Ret _, st1) =>
      let '(r, st2) :=
        history_table details "Incarceration History" incarceration_columns st1 in
      (r, st2.1)
  end.

(** The items of the dictionary assembled on the success path of
    [fetch_inmate_details], in the order in which lines 62 to 107 insert
    them. *)
Definition assembled_items (dc_number name race sex birth aliases : string)
    (sentence_history incarceration_history : list (gmap string string)) : odict :=
  [ ("DC Number", VStr dc_number);
    ("Name", VStr name);
    ("Race", VStr race);
    ("Sex", VStr sex);
    ("Birth Date", VStr birth);
    ("Current Prison Sentence History", VRows sentence_history);
    ("Aliases", VStr aliases);
    ("Incarceration History", VRows incarceration_history) ].

(** The cells of a row as the tree shows them. *)
Definition cell_texts (row : element) : list string :=
  cell_text <$> find_all (named "td") row.1.

(** No two documents of the collection share a key. *)
Definition unique_keys (docs : list dict) : Prop :=
  ∀ v, length (Mongo.find_docs "DC Number" v docs) ≤ 1.

(** [store_inmate_details] called on one dictionary after the other. *)
Definition store_all (rs : list dict) (w : world) : world :=
  foldl (fun w r => (store_inmate_details r w).2) w rs.

(** The button pressed once for each key of a list. *)
Definition press_all (keys : list string) (w : world) : world :=
  foldl (fun w dc => fetch_and_display_inmate_details dc w) w keys.

(** A string of whitespace only. *)
Fixpoint blank (s : string) : bool :=
  match s with
  | EmptyString => true
  | String c s' => Str.isspace c && blank s'
  end.

(** Every row has at least [n] cells. *)
Definition rows_at_least (n : nat) (rows : list element) : Prop :=
  Forall (fun row => n ≤ length (find_all (named "td") row.1)) rows.

(** The pages from which [fetch_inmate_details] builds a record: as
    [well_formed], except that a row may have more cells than its schema. *)
Definition extractable (soup : node) : Prop :=
  has_marker soup
  ∧ (∃ name, field_value soup "Name:" = Some name ∧ name ≠ EmptyString)
  ∧ (∃ race, field_value soup "Race:" = Some race ∧ race ≠ EmptyString)
  ∧ is_Some (field_value soup "Sex:")
  ∧ is_Some (field_value soup "Birth Date:")
  ∧ (∃ rows, table_rows soup DIV_CURRENT_PRISON = Some rows ∧ rows_at_least 6 rows)
  ∧ is_Some (alias_text soup)
  ∧ (∃ rows, table_rows soup DIV_INCARCERATION = Some rows ∧ rows_at_least 2 rows).

(** The text of the value cell next to a label, as it stands in the page. *)
Definition raw_value (soup : node) (label : string) : option string :=
  th ← find (with_string "th" label) soup;
  td ← find_next_sibling "td" th;
  Some (text td).

(** The entries of a dictionary that are not lists, in order. *)
Definition scalars (details : odict) : list (string * string) :=
  omap (fun kv => match kv.2 with
                  | VStr s => Some (kv.1, s)
                  | VRows _ => None
                  end) details.

(** The pairs of labels for a list of entries, on rows counted from [r]. *)
Fixpoint label_rows (r : nat) (l : list (string * string)) : frame :=
  match l with
  | [] => []
  | (k, s) :: l' =>
      Label (k +:+ ":") (Place 0 r 1) :: Label s (Place 1 r 1) :: label_rows (S r) l'
  end.

(** The grid cells (column, row) a widget covers; none when it is not
    placed. *)
Definition widget_cells (x : widget) : list (nat * nat) :=
  let cells p := (fun i => (p_column p + i, p_row p)) <$> seq 0 (p_span p) in
  match x with
  | Label _ p => cells p
  | Treeview _ _ (Some p) => cells p
  | Treeview _ _ None => []
  end.

Definition frame_cells (fr : frame) : list (nat * nat) :=
  fr ≫= widget_cells.

(** An entry has a value for every column. *)
Definition complete (columns : list string) (item : gmap string string) : Prop :=
  Forall (fun c => is_Some (item !! c)) columns.

(** The placed widgets of a frame cover different cells, all above row [r]. *)
Definition below (r : nat) (fr : frame) : Prop :=
  NoDup (frame_cells fr) ∧ Forall (fun c : nat * nat => c.2 < r) (frame_cells fr).

(** The eight fields of an inmate record. *)
Definition record_fields : gset string :=
  list_to_set
    ["DC Number"; "Name"; "Race"; "Sex"; "Birth Date";
     "Current Prison Sentence History"; "Aliases"; "Incarceration History"].

(** A record: a dictionary with exactly the eight fields, as
    [fetch_inmate_details] builds them; [store_inmate_details] is only
    called with such dictionaries. *)
Definition is_record (d : dict) : Prop := dom d = record_fields.

(** A field name that [$set] writes as one top-level field: it is not
    empty, has no dot (a dot makes it a path into a nested document), does
    not start with a dollar sign and is not the server's [_id]. For such
    names [Mongo.set_fields] is what the store does. *)
Definition plain_key (k : string) : bool :=
  negb (Str.is_empty k) && negb (Str.contains "." k)
  && negb (String.prefix "$" k) && negb (bool_decide (k = "_id")).

Definition plain_fields (d : dict) : Prop :=
  ∀ k, is_Some (d !! k) → plain_key k = true.

(** * Properties *)

(** ** Strings *)

Section strip_facts.
Import Str.

Lemma lstrip_head_clean s : head_clean (lstrip s).
Proof.
  induction s as [|c s IH]; simpl; [exact I|].
  destruct (isspace c) eqn:E; [exact IH | exact E].
Qed.

Lemma lstrip_fixed s : head_clean s -> lstrip s = s.
Proof. destruct s as [|c s]; simpl; [reflexivity|]. intros ->. reflexivity. Qed.

Lemma rstrip_head_clean s : head_clean s -> head_clean (rstrip s).
Proof.
  destruct s as [|c s]; simpl; [trivial|]. intros E.
  destruct (rstrip s); simpl; [rewrite E|]; exact E.
Qed.

Lemma rstrip_idem s : rstrip (rstrip s) = rstrip s.
Proof.
  induction s as [|c s IH]; simpl; [reflexivity|].
  destruct (rstrip s) as [|d r] eqn:E.
  - destruct (isspace c) eqn:Ec; simpl; [reflexivity|]. rewrite Ec. reflexivity.
  - change (rstrip (String c (String d r))) with
      (match rstrip (String d r) with
       | EmptyString => if isspace c then EmptyString else String c EmptyString
       | String a b => String c (String a b)
       end).
    rewrite IH. reflexivity.
Qed.

Lemma strip_head_clean s : head_clean (strip s).
Proof. apply rstrip_head_clean, lstrip_head_clean. Qed.

Lemma strip_idem s : strip (strip s) = strip s.
Proof.
  unfold strip at 1. rewrite (lstrip_fixed _ (strip_head_clean s)).
  unfold strip. apply rstrip_idem.
Qed.

Lemma rstrip_tail_clean s : tail_clean (rstrip s).
Proof.
  unfold tail_clean. induction s as [|c s IH]; simpl; [exact I|].
  destruct (rstrip s) as [|d r] eqn:E.
  - destruct (isspace c) eqn:Ec; simpl; [exact I|exact Ec].
  - exact IH.
Qed.

(** What [strip] returns neither starts nor ends with whitespace. *)
Lemma strip_trimmed s : trimmed (strip s).
Proof. split; [apply strip_head_clean|apply rstrip_tail_clean]. Qed.

(** [lstrip] only removes whitespace: the string is a run of whitespace
    followed by what it returns. *)
Lemma lstrip_split s :
  ∃ pre, s = pre +:+ lstrip s
         ∧ Forall (fun c => isspace c = true) (String.list_ascii_of_string pre).
Proof.
  induction s as [|c s (pre & IH & Hpre)]; simpl.
  - exists EmptyString. split; [reflexivity|constructor].
  - destruct (isspace c) eqn:Ec.
    + exists (String c pre). split; [|by constructor].
      change (String c s = String c (pre +:+ lstrip s)). by rewrite <- IH.
    + exists EmptyString. split; [reflexivity|constructor].
Qed.

End strip_facts.

(** ** Evaluation on the test page *)

Example jane_extracted :
  inmate_details_of_soup Pages.jane_page "123456" = Ret (PDict Pages.jane_record).
Proof. vm_compute. reflexivity. Qed.

Example jane_expected :
  expected_record Pages.jane_page "123456" = Pages.jane_record.
Proof. vm_compute. reflexivity. Qed.

(** Strings in a style sheet or a comment are not part of a value. *)
Example styled_extracted :
  inmate_details_of_soup Pages.styled_page "123456" = Ret (PDict Pages.jane_record).
Proof. vm_compute. reflexivity. Qed.

Example strip_cell : Str.strip "  5 Years " = "5 Years".
Proof. reflexivity. Qed.

Example marker_inside :
  Str.contains MARKER "FDC - Inmate Population Information Detail" = true.
Proof. reflexivity. Qed.

(** Scenario C from request to queue: nothing is stored, and the callback
    queued is the error lambda of the except clause. *)
Example no_race_run :
  let w := run_thread (fetch_and_display_inmate_details "123456"
             (Pages.idle (Pages.serve "123456" Pages.no_race_page) None)) in
  collection w = [] ∧ update_calls w = 0
  ∧ after_queue w = [CbError (AttributeError "find_next_sibling")].
Proof. vm_compute. auto. Qed.

(** A page that is not a detail page: the thread queues the failure dialog. *)
Example not_found_run :
  let w := run_thread (fetch_and_display_inmate_details "123456"
             (Pages.idle (Pages.serve "123456" Pages.not_found_page) None)) in
  collection w = [] ∧ after_queue w = [CbFailed].
Proof. vm_compute. auto. Qed.

(** ** The loops over the table rows *)

Section rows.
Local Open Scope py_scope.

Lemma for_append_Forall {A B} (P : B -> Prop) (f : A -> result B) l :
  (∀ x y, f x = Ret y → P y) →
  ∀ acc rows, Forall P acc → for_append f l acc = Ret rows → Forall P rows.
Proof.
  intros Hf. induction l as [|x l IH]; simpl; intros acc rows Hacc Hrun.
  - congruence.
  - destruct (f x) as [y|e] eqn:Hx; simpl in Hrun; [|discriminate].
    apply (IH (acc ++ [y])); [|exact Hrun].
    apply Forall_app; split; [exact Hacc|]. repeat constructor. eauto.
Qed.

(** When the body succeeds on every row, the loop is a [map] in the order
    of the rows. *)
Lemma for_append_map {A B} (f : A -> result B) (g : A -> B) l :
  Forall (fun x => f x = Ret (g x)) l →
  ∀ acc, for_append f l acc = Ret (acc ++ (g <$> l)).
Proof.
  induction 1 as [|x l Hx _ IH]; intros acc; simpl.
  - by rewrite app_nil_r.
  - rewrite Hx. simpl. rewrite IH, <- app_assoc. reflexivity.
Qed.

(** The loop stops with the exception of the first row on which the body
    raises. *)
Lemma for_append_raise {A B} (f : A -> result B) (g : A -> B) l x e l' :
  Forall (fun x => f x = Ret (g x)) l → f x = Raise e →
  ∀ acc, for_append f (l ++ x :: l') acc = Raise e.
Proof.
  induction 1 as [|y l Hy _ IH]; intros Hx acc; simpl.
  - by rewrite Hx.
  - rewrite Hy. simpl. by apply IH.
Qed.


Lemma row_trimmed_empty : row_trimmed ∅.
Proof. intros k s. by rewrite lookup_empty. Qed.

Lemma row_trimmed_insert k e row :
  row_trimmed row → row_trimmed (<[k := cell_text e]> row).
Proof.
  intros Hrow k' s. rewrite lookup_insert. case_decide.
  - intros [= <-]. apply strip_trimmed.
  - apply Hrow.
Qed.

Lemma sentence_row_trimmed row m : sentence_row row = Ret m → row_trimmed m.
Proof.
  unfold sentence_row, index.
  repeat (match goal with
          | |- context [?l !! ?i] => destruct (l !! i); simpl; [|discriminate]
          end).
  intros [= <-]. repeat apply row_trimmed_insert. apply row_trimmed_empty.
Qed.

Lemma incarceration_row_trimmed row m : incarceration_row row = Ret m → row_trimmed m.
Proof.
  unfold incarceration_row, index.
  repeat (match goal with
          | |- context [?l !! ?i] => destruct (l !! i); simpl; [|discriminate]
          end).
  intros [= <-]. repeat apply row_trimmed_insert. apply row_trimmed_empty.
Qed.

Lemma sentence_row_positional row :
  length (find_all (named "td") row.1) = 6 →
  sentence_row row = Ret (positional sentence_schema row).
Proof.
  unfold sentence_row, positional.
  destruct (find_all (named "td") row.1) as [|c0 [|c1 [|c2 [|c3 [|c4 [|c5 [|? ?]]]]]]];
    try discriminate.
  intros _. reflexivity.
Qed.

Lemma incarceration_row_positional row :
  length (find_all (named "td") row.1) = 2 →
  incarceration_row row = Ret (positional incarceration_schema row).
Proof.
  unfold incarceration_row, positional.
  destruct (find_all (named "td") row.1) as [|c0 [|c1 [|? ?]]]; try discriminate.
  intros _. reflexivity.
Qed.

(** A row that is too short makes the body raise [IndexError]. *)
Lemma sentence_row_short row :
  length (find_all (named "td") row.1) < 6 → sentence_row row = Raise IndexError.
Proof.
  unfold sentence_row.
  destruct (find_all (named "td") row.1) as [|c0 [|c1 [|c2 [|c3 [|c4 [|c5 ?]]]]]];
    simpl; intros; try reflexivity; lia.
Qed.

Lemma history_of_rows soup i body (g : element -> gmap string string) rows :
  table_rows soup i = Some rows →
  Forall (fun row => body row = Ret (g row)) rows →
  history_of soup i body = Ret (g <$> rows).
Proof.
  unfold table_rows, history_of. intros Hrows Hbody.
  destruct (find (with_id "div" i) soup) as [d|]; [simpl in *|discriminate].
  destruct (find (named "table") d.1) as [t|]; [simpl in *|discriminate].
  injection Hrows as <-. by rewrite (for_append_map _ g).
Qed.

Lemma history_of_trimmed soup i body rows :
  (∀ row m, body row = Ret m → row_trimmed m) →
  history_of soup i body = Ret rows → Forall row_trimmed rows.
Proof.
  unfold history_of. intros Hbody.
  destruct (find (with_id "div" i) soup) as [d|]; [simpl|discriminate].
  destruct (find (named "table") d.1) as [t|]; [simpl|discriminate].
  apply (for_append_Forall row_trimmed); [exact Hbody | constructor].
Qed.

End rows.

(** ** The labelled fields *)

Section fields.
Local Open Scope py_scope.

Lemma sibling_value_trimmed th v : sibling_value th = Ret v → Str.trimmed v.
Proof.
  unfold sibling_value. destruct (find_next_sibling "td" th); [simpl|discriminate].
  intros [= <-]. apply strip_trimmed.
Qed.

Lemma labelled_value_trimmed soup label v :
  labelled_value soup label = Ret v → Str.trimmed v.
Proof.
  unfold labelled_value. destruct (find _ soup); [simpl|discriminate].
  apply sibling_value_trimmed.
Qed.

(** The code's lookup succeeds exactly when the field has a value. *)
Lemma labelled_value_Ret soup label v :
  labelled_value soup label = Ret v ↔ field_value soup label = Some v.
Proof.
  unfold labelled_value, field_value, sibling_value.
  destruct (find _ soup) as [th|]; simpl; [|split; discriminate].
  destruct (find_next_sibling "td" th); simpl; split; congruence.
Qed.

Lemma labelled_value_Raise soup label :
  field_value soup label = None →
  ∃ attr, labelled_value soup label = Raise (AttributeError attr).
Proof.
  unfold labelled_value, field_value, sibling_value.
  destruct (find _ soup) as [th|]; simpl; [|by eexists].
  destruct (find_next_sibling "td" th); simpl; [discriminate|by eexists].
Qed.

Lemma labelled_value_cases soup label :
  (∃ v, field_value soup label = Some v ∧ labelled_value soup label = Ret v)
  ∨ (field_value soup label = None
     ∧ ∃ attr, labelled_value soup label = Raise (AttributeError attr)).
Proof.
  destruct (field_value soup label) as [v|] eqn:E.
  - left. exists v. split; [reflexivity|]. by apply labelled_value_Ret.
  - right. split; [reflexivity|]. by apply labelled_value_Raise.
Qed.

(** The [Name] field is read from the label found first. *)
Lemma name_value soup th :
  find (with_string "th" "Name:") soup = Some th →
  sibling_value th = labelled_value soup "Name:".
Proof. unfold labelled_value. by intros ->. Qed.

Lemma is_empty_true s : Str.is_empty s = true ↔ s = EmptyString.
Proof. destruct s; simpl; split; congruence. Qed.

Lemma is_empty_false s : Str.is_empty s = false ↔ s ≠ EmptyString.
Proof. destruct s; simpl; split; congruence. Qed.

End fields.

(** ** What a successful extraction returns *)

Section extraction.
Local Open Scope py_scope.

(** Every dictionary that extraction returns is empty (the page had no
    marker) or assembled from values read on the success path. *)
Lemma extraction_inv soup dc d :
  inmate_details_of_soup soup dc = Ret (PDict d) →
  (d = ∅ ∧ ∃ s, title_string soup = Some s ∧ Str.contains MARKER s = false)
  ∨ ∃ name race sex birth aliases sh ih,
      d = assembled dc name race sex birth aliases sh ih
      ∧ has_marker soup
      ∧ labelled_value soup "Name:" = Ret name ∧ name ≠ EmptyString
      ∧ labelled_value soup "Race:" = Ret race ∧ race ≠ EmptyString
      ∧ labelled_value soup "Sex:" = Ret sex
      ∧ labelled_value soup "Birth Date:" = Ret birth
      ∧ history_of soup DIV_CURRENT_PRISON sentence_row = Ret sh
      ∧ alias_text soup = Some aliases
      ∧ history_of soup DIV_INCARCERATION incarceration_row = Ret ih.
Proof.
  unfold inmate_details_of_soup, has_marker, title_string, alias_text, alias_block.
  destruct (title soup) as [t|]; [simpl|discriminate].
  destruct (string_of t.1) as [s|]; [|discriminate].
  destruct (Str.contains MARKER s) eqn:Hm.
  2:{ intros [= <-]. left. eauto. }
  destruct (find (with_string "th" "Name:") soup) as [th|] eqn:Hth; [|discriminate].
  rewrite (name_value _ _ Hth).
  destruct (labelled_value soup "Name:") as [name|] eqn:Hname; [simpl|discriminate].
  destruct (labelled_value soup "Race:") as [race|] eqn:Hrace; [simpl|discriminate].
  destruct (labelled_value soup "Sex:") as [sex|] eqn:Hsex; [simpl|discriminate].
  destruct (labelled_value soup "Birth Date:") as [birth|] eqn:Hbirth; [simpl|discriminate].
  destruct (Str.is_empty name) eqn:En; [discriminate|].
  destruct (Str.is_empty race) eqn:Er; [discriminate|]. simpl.
  destruct (history_of soup DIV_CURRENT_PRISON sentence_row) as [sh|]; [simpl|discriminate].
  destruct (find (with_id "div" DIV_ALIAS) soup) as [ad|]; [simpl|discriminate].
  destruct (find (named "p") ad.1) as [p|]; [simpl|discriminate].
  destruct (history_of soup DIV_INCARCERATION incarceration_row) as [ih|];
    [simpl|discriminate].
  intros [= <-]. right.
  exists name, race, sex, birth, (Str.strip (text p.1)), sh, ih.
  apply is_empty_false in En, Er. eauto 15.
Qed.

Lemma assembled_nonempty dc name race sex birth aliases sh ih :
  assembled dc name race sex birth aliases sh ih ≠ ∅.
Proof. apply insert_non_empty. Qed.

Lemma assembled_key dc name race sex birth aliases sh ih :
  assembled dc name race sex birth aliases sh ih !! "DC Number" = Some (VStr dc).
Proof. reflexivity. Qed.

(** A record carries its key. *)
Lemma extracted_key soup dc d :
  inmate_details_of_soup soup dc = Ret (PDict d) → d ≠ ∅ →
  d !! "DC Number" = Some (VStr dc).
Proof.
  intros H Hd. apply extraction_inv in H as [[-> _]|H]; [done|].
  destruct H as (name & race & sex & birth & al & sh & ih & -> & _).
  apply assembled_key.
Qed.

Lemma truthy_dict d : truthy (PDict d) = true ↔ d ≠ ∅.
Proof.
  unfold truthy. case_bool_decide; simpl; split; intros; congruence.
Qed.

End extraction.

(** C10. Every string that a successful extraction read from the page is
    whitespace-trimmed: in the record returned, [Name], [Race], [Sex],
    [Birth Date] and [Aliases] are present and none of them starts or ends
    with a whitespace character, and the same holds for every cell of every
    entry of the two histories. *)
Theorem extracted_strings_trimmed soup dc d :
  inmate_details_of_soup soup dc = Ret (PDict d) → d ≠ ∅ → record_trimmed d.
Proof.
  intros H Hd. apply extraction_inv in H as [[-> _]|H]; [done|].
  destruct H as (name & race & sex & birth & al & sh & ih & -> & _ &
                 Hname & _ & Hrace & _ & Hsex & Hbirth & Hsh & Hal & Hih).
  apply labelled_value_trimmed in Hname, Hrace, Hsex, Hbirth.
  apply (history_of_trimmed _ _ _ _ sentence_row_trimmed) in Hsh.
  apply (history_of_trimmed _ _ _ _ incarceration_row_trimmed) in Hih.
  assert (Str.trimmed al) as Hal'.
  { unfold alias_text in Hal. destruct (alias_block soup) as [ad|]; [simpl in Hal|done].
    destruct (find (named "p") ad.1); [simpl in Hal|done].
    injection Hal as <-. apply strip_trimmed. }
  split; intros f Hf.
  - unfold scalar_fields in Hf.
    repeat (apply elem_of_cons in Hf as [->|Hf]; [eexists; split; [reflexivity|assumption]|]).
    by apply elem_of_nil in Hf.
  - unfold history_fields in Hf.
    repeat (apply elem_of_cons in Hf as [->|Hf]; [eexists; split; [reflexivity|assumption]|]).
    by apply elem_of_nil in Hf.
Qed.

Lemma extracted_strings_trimmed_witness :
  record_trimmed Pages.jane_record.
Proof.
  apply (extracted_strings_trimmed Pages.jane_page "123456").
  - vm_compute. reflexivity.
  - vm_compute. discriminate.
Defined.

(** ** One run of the thread *)

Section worker.

Lemma store_run d k w :
  d !! "DC Number" = Some k → store_inmate_details d w = (Ret tt, stored k d w).
Proof.
  intros Hk. unfold store_inmate_details, stored. rewrite Hk.
  unfold io_try, collection_update_one, io_ret.
  by destruct (store_fault w).
Qed.

Lemma store_run_no_key d w :
  d !! "DC Number" = None →
  store_inmate_details d w = (Raise (KeyError "DC Number"), w).
Proof. intros Hk. unfold store_inmate_details. by rewrite Hk. Qed.

(** The thread never lets an exception escape, and what it does is decided
    by the outcome of the fetch. *)
Lemma worker_run dc w :
  fetch_and_store_inmate_details dc w =
  (Ret tt,
   let w1 := note_request dc w in
   match responses w (detail_url dc) with
   | Raise e => enqueue (CbError e) w1
   | Ret soup =>
       match inmate_details_of_soup soup dc with
       | Raise e => enqueue (CbError e) w1
       | Ret PNone => enqueue CbFailed w1
       | Ret (PDict d) =>
           if truthy (PDict d) then
             match d !! "DC Number" with
             | Some k => enqueue (CbDisplay d) (stored k d w1)
             | None => enqueue (CbError (KeyError "DC Number")) w1
             end
           else enqueue CbFailed w1
       end
   end).
Proof.
  unfold fetch_and_store_inmate_details, io_try, io_bind at 1,
    fetch_inmate_details, io_bind, requests_get, io_lift.
  fold (note_request dc w).
  destruct (responses w (detail_url dc)) as [soup|e]; [|reflexivity].
  destruct (inmate_details_of_soup soup dc) as [[|d]|e]; try reflexivity.
  destruct (truthy (PDict d)); [|reflexivity].
  destruct (d !! "DC Number") as [k|] eqn:Hk.
  - by rewrite (store_run _ _ _ Hk).
  - by rewrite (store_run_no_key _ _ Hk).
Qed.

End worker.

(** ** Well-formed pages *)

Lemma has_marker_title soup :
  has_marker soup →
  ∃ t s, title soup = Some t ∧ string_of t.1 = Some s ∧ Str.contains MARKER s = true.
Proof.
  intros (s & Hs & Hm). unfold title_string in Hs.
  destruct (title soup) as [t|]; [simpl in Hs|done]. eauto.
Qed.

Lemma field_value_label soup label v :
  field_value soup label = Some v → is_Some (find (with_string "th" label) soup).
Proof. unfold field_value. destruct (find _ soup); [eauto|done]. Qed.

Lemma rows_positional n body schema rows :
  (∀ row, length (find_all (named "td") row.1) = n →
          body row = Ret (positional schema row)) →
  rows_of_width n rows →
  Forall (fun row => body row = Ret (positional schema row)) rows.
Proof. intros Hbody Hw. eapply Forall_impl; [exact Hw|exact Hbody]. Qed.

(** C5. For every well-formed detail page, extraction returns the record of
    the specification: the scalar fields, and the two histories obtained by
    mapping each row after the header row positionally into the six-column
    and the two-column schema, in the order of the rows in the page; a run
    of the thread on that page stores this record under its key and queues
    it for display. *)
Theorem well_formed_extraction soup dc :
  well_formed soup →
  inmate_details_of_soup soup dc = Ret (PDict (expected_record soup dc))
  ∧ ∀ w, responses w (detail_url dc) = Ret soup → store_fault w = None →
      let w' := (fetch_and_store_inmate_details dc w).2 in
      collection w' =
        Mongo.update_one "DC Number" (VStr dc) (expected_record soup dc) true
          (collection w)
      ∧ after_queue w' = after_queue w ++ [CbDisplay (expected_record soup dc)].
Proof.
  intros (Hm & (name & Hname & Hn) & (race & Hrace & Hr) & [sex Hsex] & [birth Hbirth]
          & (srows & Hsrows & Hsw) & [al Hal] & (irows & Hirows & Hiw)).
  assert (inmate_details_of_soup soup dc = Ret (PDict (expected_record soup dc))) as Hrun.
  { unfold inmate_details_of_soup.
    destruct (has_marker_title _ Hm) as (t & s & -> & Hs & Hc). simpl.
    rewrite Hs, Hc.
    destruct (field_value_label _ _ _ Hname) as [th Hth].
    rewrite Hth, (name_value _ _ Hth).
    rewrite (proj2 (labelled_value_Ret _ _ _) Hname). simpl.
    rewrite (proj2 (labelled_value_Ret _ _ _) Hrace). simpl.
    rewrite (proj2 (labelled_value_Ret _ _ _) Hsex). simpl.
    rewrite (proj2 (labelled_value_Ret _ _ _) Hbirth). simpl.
    rewrite (proj2 (is_empty_false _) Hn), (proj2 (is_empty_false _) Hr). simpl.
    rewrite (history_of_rows _ _ _ (positional sentence_schema) _ Hsrows
               (rows_positional 6 _ _ _ sentence_row_positional Hsw)). simpl.
    rewrite (history_of_rows _ _ _ (positional incarceration_schema) _ Hirows
               (rows_positional 2 _ _ _ incarceration_row_positional Hiw)).
    unfold expected_record. rewrite Hname, Hrace, Hsex, Hbirth, Hal, Hsrows, Hirows.
    unfold alias_text, alias_block in Hal.
    destruct (find (with_id "div" DIV_ALIAS) soup) as [ad|]; [simpl in *|done].
    destruct (find (named "p") ad.1) as [p|]; [simpl in *|done].
    injection Hal as <-. reflexivity. }
  split; [exact Hrun|].
  intros w Hw Hup. rewrite worker_run. cbn zeta. rewrite Hw, Hrun.
  assert (expected_record soup dc ≠ ∅) as Hne by apply insert_non_empty.
  rewrite (proj2 (truthy_dict _) Hne).
  replace (expected_record soup dc !! "DC Number") with (Some (VStr dc)) by reflexivity.
  unfold stored. simpl. rewrite Hup. split; reflexivity.
Qed.

Lemma jane_well_formed : well_formed Pages.jane_page.
Proof.
  repeat split;
    try (eexists; split; [vm_compute; reflexivity|]);
    try (eexists; vm_compute; reflexivity);
    try discriminate.
  - repeat constructor.
  - constructor.
Qed.

Lemma well_formed_extraction_witness :
  well_formed Pages.jane_page
  ∧ inmate_details_of_soup Pages.jane_page "123456" = Ret (PDict Pages.jane_record)
  ∧ (∃ s, Pages.jane_record !! "Current Prison Sentence History" = Some (VRows [s]))
  ∧ Pages.jane_record !! "Incarceration History" = Some (VRows [])
  ∧ let w := run_thread (fetch_and_display_inmate_details "123456"
                 (Pages.idle (Pages.serve "123456" Pages.jane_page) None)) in
    collection w = [Pages.jane_record]
    ∧ after_queue w = [CbDisplay Pages.jane_record].
Proof.
  destruct (well_formed_extraction Pages.jane_page "123456" jane_well_formed)
    as [Hrun Hpipe].
  rewrite jane_expected in *.
  split; [exact jane_well_formed|]. split; [exact Hrun|].
  split; [eexists; vm_compute; reflexivity|]. split; [vm_compute; reflexivity|].
  exact (Hpipe (Pages.idle (Pages.serve "123456" Pages.jane_page) None)
           eq_refl eq_refl).
Defined.

(** ** Pages without the marker *)

Lemma lacks_marker_title soup s :
  lacks_marker soup → title_string soup = Some s → Str.contains MARKER s = false.
Proof.
  intros Hno Hs. destruct (Str.contains MARKER s) eqn:E; [|reflexivity].
  exfalso. apply Hno. exists s. auto.
Qed.

(** C2, as stated, fails: the search page that the site serves for an
    unknown key has a title without the marker, and extraction returns the
    empty dictionary, not a failure of the kind DocumentStructureError. *)
Lemma no_marker_not_typed :
  lacks_marker Pages.not_found_page
  ∧ inmate_details_of_soup Pages.not_found_page "123456" = Ret (PDict ∅)
  ∧ ¬ typed_failure "DocumentStructureError"
        (inmate_details_of_soup Pages.not_found_page "123456").
Proof.
  split; [|split].
  - intros (s & Hs & Hc). vm_compute in Hs. injection Hs as <-.
    vm_compute in Hc. discriminate.
  - vm_compute. reflexivity.
  - intros [msg H]. vm_compute in H. discriminate.
Qed.

(** C2, amended. For every page lacking the marker, extraction produces no
    record: when the title has a text (without the token) it returns a falsy
    value, and when the page has no title or the title no single text, the
    lookup itself raises [AttributeError] or [TypeError]. *)
Theorem no_marker_no_record soup dc :
  lacks_marker soup →
  ¬ yields_record (inmate_details_of_soup soup dc)
  ∧ match title_string soup with
    | Some _ => ∃ v, inmate_details_of_soup soup dc = Ret v ∧ truthy v = false
    | None => ∃ e, inmate_details_of_soup soup dc = Raise e
                   ∧ (exn_class e = "AttributeError" ∨ exn_class e = "TypeError")
    end.
Proof.
  intros Hno.
  assert (match title_string soup with
          | Some _ => inmate_details_of_soup soup dc = Ret (PDict ∅)
          | None => ∃ e, inmate_details_of_soup soup dc = Raise e
                         ∧ (exn_class e = "AttributeError" ∨ exn_class e = "TypeError")
          end) as H.
  { pose proof (fun s => lacks_marker_title soup s Hno) as Hs.
    unfold inmate_details_of_soup, title_string in *.
    destruct (title soup) as [t|]; simpl in *.
    - destruct (string_of t.1) as [s|].
      + by rewrite (Hs s eq_refl).
      + eexists. split; [reflexivity|]. by right.
    - eexists. split; [reflexivity|]. by left. }
  destruct (title_string soup) as [s|].
  - rewrite H. split.
    + intros (d & [= <-] & Hd). by apply Hd.
    + by exists (PDict ∅).
  - destruct H as (e & -> & He). split.
    + intros (d & Hd & _). discriminate.
    + eauto.
Qed.

Lemma no_marker_no_record_witness :
  ¬ yields_record (inmate_details_of_soup Pages.no_title_page "123456")
  ∧ ¬ yields_record (inmate_details_of_soup Pages.not_found_page "123456").
Proof.
  split.
  - apply (no_marker_no_record Pages.no_title_page "123456").
    intros (s & Hs & _). vm_compute in Hs. discriminate.
  - apply (no_marker_no_record Pages.not_found_page "123456").
    intros (s & Hs & Hc). vm_compute in Hs. injection Hs as <-.
    vm_compute in Hc. discriminate.
Defined.

(** ** Detail pages without a required field *)

(** C3, as stated, fails: on the detail page without the [Race] row
    (Scenario C) extraction raises [AttributeError], not a failure of the
    kind MissingRequiredField. *)
Lemma missing_race_not_typed :
  has_marker Pages.no_race_page
  ∧ missing (field_value Pages.no_race_page "Race:")
  ∧ inmate_details_of_soup Pages.no_race_page "123456"
    = Raise (AttributeError "find_next_sibling")
  ∧ ¬ typed_failure "MissingRequiredField"
        (inmate_details_of_soup Pages.no_race_page "123456").
Proof.
  split; [|split; [|split]].
  - eexists. split; vm_compute; reflexivity.
  - left. vm_compute. reflexivity.
  - vm_compute. reflexivity.
  - intros [msg H]. vm_compute in H. discriminate.
Qed.

(** C3, amended. For every page bearing the marker in which [Name] or
    [Race] is absent or empty, extraction yields no record, neither complete
    nor partial: it returns [None] or raises [AttributeError]; and a run of
    the thread on such a page issues no write and leaves the collection as it
    was. *)
Theorem missing_required_no_record soup dc :
  has_marker soup →
  missing (field_value soup "Name:") ∨ missing (field_value soup "Race:") →
  (inmate_details_of_soup soup dc = Ret PNone
   ∨ ∃ attr, inmate_details_of_soup soup dc = Raise (AttributeError attr))
  ∧ ∀ w, responses w (detail_url dc) = Ret soup →
      let w' := (fetch_and_store_inmate_details dc w).2 in
      collection w' = collection w ∧ update_calls w' = update_calls w.
Proof.
  intros Hm Hmiss.
  assert (inmate_details_of_soup soup dc = Ret PNone
          ∨ ∃ attr, inmate_details_of_soup soup dc = Raise (AttributeError attr)) as H.
  { unfold inmate_details_of_soup.
    destruct (has_marker_title _ Hm) as (t & s & -> & Hs & Hc). simpl.
    rewrite Hs, Hc.
    destruct (find (with_string "th" "Name:") soup) as [th|] eqn:Hth; [|by left].
    rewrite (name_value _ _ Hth).
    destruct (labelled_value_cases soup "Name:") as [(name & Fn & ->)|(Fn & a & ->)];
      [simpl|right; by exists a].
    destruct (labelled_value_cases soup "Race:") as [(race & Fr & ->)|(Fr & a & ->)];
      [simpl|right; by exists a].
    destruct (labelled_value_cases soup "Sex:") as [(sex & _ & ->)|(_ & a & ->)];
      [simpl|right; by exists a].
    destruct (labelled_value_cases soup "Birth Date:") as [(birth & _ & ->)|(_ & a & ->)];
      [simpl|right; by exists a].
    assert (Str.is_empty name || Str.is_empty race = true) as ->; [|by left].
    rewrite Fn, Fr in Hmiss. apply orb_true_iff.
    destruct Hmiss as [[?|[= ->]]|[?|[= ->]]]; try discriminate; auto. }
  split; [exact H|].
  intros w Hw. rewrite worker_run. cbn zeta. rewrite Hw.
  destruct H as [->|[a ->]]; split; reflexivity.
Qed.

Lemma missing_required_no_record_witness :
  inmate_details_of_soup Pages.no_race_page "123456" = Ret PNone
  ∨ ∃ attr, inmate_details_of_soup Pages.no_race_page "123456"
            = Raise (AttributeError attr).
Proof.
  apply (missing_required_no_record Pages.no_race_page "123456").
  - eexists. split; vm_compute; reflexivity.
  - right. left. vm_compute. reflexivity.
Defined.

(** ** Detail pages without the alias block *)

(** C6, as stated, fails: on the page of Scenario A without its alias block
    extraction raises [AttributeError]; it returns no record, and so none
    with an empty [Aliases]. *)
Lemma absent_alias_no_record :
  has_marker Pages.no_alias_page
  ∧ field_value Pages.no_alias_page "Name:" = Some "Jane Doe"
  ∧ field_value Pages.no_alias_page "Race:" = Some "White"
  ∧ alias_block Pages.no_alias_page = None
  ∧ inmate_details_of_soup Pages.no_alias_page "123456" = Raise (AttributeError "find")
  ∧ ¬ ∃ d, inmate_details_of_soup Pages.no_alias_page "123456" = Ret (PDict d)
           ∧ d !! "Aliases" = Some (VStr EmptyString).
Proof.
  repeat split; try (vm_compute; reflexivity).
  - eexists. split; vm_compute; reflexivity.
  - intros (d & H & _). vm_compute in H. discriminate.
Qed.

(** C6, amended. For every page bearing the marker with all required fields
    present but whose alias block is absent, extraction does not succeed: it
    raises an exception and returns no record; once the sentence history has
    been read, the exception is the [AttributeError] of the lookup in the
    missing block. *)
Theorem absent_alias_raises soup dc :
  has_marker soup →
  (∃ name, field_value soup "Name:" = Some name ∧ name ≠ EmptyString) →
  (∃ race, field_value soup "Race:" = Some race ∧ race ≠ EmptyString) →
  is_Some (field_value soup "Sex:") →
  is_Some (field_value soup "Birth Date:") →
  alias_block soup = None →
  (∃ e, inmate_details_of_soup soup dc = Raise e)
  ∧ (∀ sh, history_of soup DIV_CURRENT_PRISON sentence_row = Ret sh →
       inmate_details_of_soup soup dc = Raise (AttributeError "find")).
Proof.
  intros Hm (name & Hname & Hn) (race & Hrace & Hr) [sex Hsex] [birth Hbirth] Hal.
  unfold inmate_details_of_soup.
  destruct (has_marker_title _ Hm) as (t & s & -> & Hs & Hc). simpl.
  rewrite Hs, Hc.
  destruct (field_value_label _ _ _ Hname) as [th Hth].
  rewrite Hth, (name_value _ _ Hth).
  rewrite (proj2 (labelled_value_Ret _ _ _) Hname). simpl.
  rewrite (proj2 (labelled_value_Ret _ _ _) Hrace). simpl.
  rewrite (proj2 (labelled_value_Ret _ _ _) Hsex). simpl.
  rewrite (proj2 (labelled_value_Ret _ _ _) Hbirth). simpl.
  rewrite (proj2 (is_empty_false _) Hn), (proj2 (is_empty_false _) Hr). simpl.
  unfold alias_block in Hal. rewrite Hal.
  destruct (history_of soup DIV_CURRENT_PRISON sentence_row) as [sh|e]; simpl.
  - split; [by eexists|]. reflexivity.
  - split; [by eexists|]. discriminate.
Qed.

Lemma absent_alias_raises_witness :
  ∃ e, inmate_details_of_soup Pages.no_alias_page "123456" = Raise e.
Proof.
  apply (absent_alias_raises Pages.no_alias_page "123456").
  - eexists. split; vm_compute; reflexivity.
  - eexists. split; [vm_compute; reflexivity|discriminate].
  - eexists. split; [vm_compute; reflexivity|discriminate].
  - eexists. vm_compute. reflexivity.
  - eexists. vm_compute. reflexivity.
  - vm_compute. reflexivity.
Defined.

(** ** The collection under [update_one] *)

Section collection.
Import Mongo.

Lemma set_fields_lookup upd doc k v :
  upd !! k = Some v → set_fields upd doc !! k = Some v.
Proof. intros H. by apply lookup_union_Some_l. Qed.

Lemma set_fields_idem upd doc : set_fields upd (set_fields upd doc) = set_fields upd doc.
Proof. unfold set_fields. by rewrite (assoc_L (∪)), (idemp_L (∪)). Qed.

Lemma set_fields_matches k v upd doc :
  upd !! k = Some v → matches k v (set_fields upd doc) = true.
Proof.
  intros H. unfold matches. apply bool_decide_eq_true. by apply set_fields_lookup.
Qed.

(** A second identical update finds the document the first one wrote and
    leaves it as it is. *)
Lemma update_first_again k v upd docs docs' :
  upd !! k = Some v →
  update_first k v upd docs = Some docs' →
  update_first k v upd docs' = Some docs'.
Proof.
  intros Hk. revert docs'. induction docs as [|d ds IH]; simpl; intros docs' H.
  - discriminate.
  - destruct (matches k v d) eqn:Hd.
    + injection H as <-. simpl.
      by rewrite (set_fields_matches _ _ _ _ Hk), set_fields_idem.
    + destruct (update_first k v upd ds) as [ds'|]; [simpl in H|discriminate].
      injection H as <-. simpl. rewrite Hd. by rewrite (IH ds' eq_refl).
Qed.

Lemma update_first_inserted k v upd docs d :
  update_first k v upd docs = None → matches k v d = true →
  update_first k v upd (docs ++ [d]) = Some (docs ++ [set_fields upd d]).
Proof.
  intros Hnone Hd. induction docs as [|x ds IH]; simpl in *.
  - by rewrite Hd.
  - destruct (matches k v x); [discriminate|].
    destruct (update_first k v upd ds); [discriminate|].
    by rewrite IH.
Qed.

Lemma update_one_again k v upd docs :
  upd !! k = Some v →
  update_one k v upd true (update_one k v upd true docs) = update_one k v upd true docs.
Proof.
  intros Hk. unfold update_one at 2 3.
  destruct (update_first k v upd docs) as [docs'|] eqn:H.
  - unfold update_one. by rewrite (update_first_again _ _ _ _ _ Hk H).
  - unfold update_one.
    rewrite (update_first_inserted _ _ _ _ _ H (set_fields_matches _ _ _ _ Hk)).
    by rewrite set_fields_idem.
Qed.

(** The first document under a key after an upsert: the update merged into
    the document that was there, or into the filter's field when there was
    none. *)
Lemma find_one_update_one v upd docs :
  upd !! "DC Number" = Some v →
  find_one v (update_one "DC Number" v upd true docs)
  = Some (set_fields upd (default {[ "DC Number" := v ]} (find_one v docs))).
Proof.
  intros Hk. unfold update_one, find_one, find_docs.
  assert (∀ docs,
    match update_first "DC Number" v upd docs with
    | Some docs' =>
        ∃ d, head (List.filter (matches "DC Number" v) docs) = Some d
             ∧ head (List.filter (matches "DC Number" v) docs')
               = Some (set_fields upd d)
    | None => List.filter (matches "DC Number" v) docs = []
    end) as Hfirst.
  { clear docs. induction docs as [|d ds IH]; simpl; [reflexivity|].
    destruct (matches "DC Number" v d) eqn:Hd.
    - exists d. simpl. by rewrite (set_fields_matches _ _ _ _ Hk).
    - destruct (update_first "DC Number" v upd ds) as [ds'|]; simpl.
      + by rewrite Hd.
      + exact IH. }
  specialize (Hfirst docs).
  destruct (update_first "DC Number" v upd docs) as [docs'|].
  - destruct Hfirst as (d & -> & ->). reflexivity.
  - rewrite List.filter_app, Hfirst. simpl.
    by rewrite (set_fields_matches _ _ _ _ Hk).
Qed.

End collection.

(** ** Upserts *)

Section upsert.
Import Mongo.

Lemma stored_fault k d w : store_fault (stored k d w) = store_fault w.
Proof. unfold stored. by destruct (store_fault w) eqn:E. Qed.

Lemma stored_collection k d w :
  store_fault w = None →
  collection (stored k d w) = update_one "DC Number" k d true (collection w).
Proof. unfold stored. by intros ->. Qed.

(** The document under the key after two upserts with that key. *)
Lemma upsert_twice r1 r2 k w :
  r1 !! "DC Number" = Some k → r2 !! "DC Number" = Some k →
  store_fault w = None →
  find_one k (collection (store_inmate_details r2 (store_inmate_details r1 w).2).2)
  = Some (r2 ∪ (r1 ∪ default {[ "DC Number" := k ]} (find_one k (collection w)))).
Proof.
  intros H1 H2 Hup.
  rewrite (store_run _ _ _ H1). simpl. rewrite (store_run _ _ _ H2). simpl.
  rewrite stored_collection by by rewrite stored_fault.
  rewrite (find_one_update_one _ _ _ H2).
  rewrite (stored_collection _ _ _ Hup).
  by rewrite (find_one_update_one _ _ _ H1).
Qed.

Lemma union_covered (m1 m2 : dict) : dom m2 ⊆ dom m1 → m1 ∪ m2 = m1.
Proof.
  intros Hdom. apply map_eq. intros i.
  destruct (m1 !! i) as [x|] eqn:E.
  - by apply lookup_union_Some_l.
  - rewrite (lookup_union_r _ _ _ E).
    apply not_elem_of_dom. apply not_elem_of_dom in E. set_solver.
Qed.

End upsert.

(** Two records that extraction built for one key have the same fields, so
    for them the second upsert leaves exactly the second record. *)
Lemma upsert_extracted_replaces soup1 soup2 dc d1 d2 w :
  inmate_details_of_soup soup1 dc = Ret (PDict d1) → d1 ≠ ∅ →
  inmate_details_of_soup soup2 dc = Ret (PDict d2) → d2 ≠ ∅ →
  store_fault w = None →
  find_one (VStr dc) (collection w) = None →
  find_one (VStr dc)
    (collection (store_inmate_details d2 (store_inmate_details d1 w).2).2)
  = Some d2.
Proof.
  intros E1 N1 E2 N2 Hup Hnew.
  rewrite (upsert_twice d1 d2 (VStr dc) w
             (extracted_key _ _ _ E1 N1) (extracted_key _ _ _ E2 N2) Hup).
  rewrite Hnew. simpl. f_equal. apply union_covered.
  apply extraction_inv in E1 as [[-> _]|E1]; [done|].
  apply extraction_inv in E2 as [[-> _]|E2]; [done|].
  destruct E1 as (? & ? & ? & ? & ? & ? & ? & -> & _).
  destruct E2 as (? & ? & ? & ? & ? & ? & ? & -> & _).
  unfold assembled. rewrite dom_union, !dom_insert, dom_singleton. set_solver.
Qed.




(** C7. Upserting the same record twice leaves the collection, and the
    condition of the store, exactly as after upserting it once. *)
Theorem upsert_idempotent r w :
  let w1 := (store_inmate_details r w).2 in
  let w2 := (store_inmate_details r w1).2 in
  collection w2 = collection w1 ∧ store_fault w2 = store_fault w1.
Proof.
  cbn zeta. destruct (r !! "DC Number") as [k|] eqn:Hk.
  - rewrite (store_run _ _ _ Hk). simpl. rewrite (store_run _ _ _ Hk). simpl.
    split; [|apply stored_fault].
    unfold stored at 1. rewrite stored_fault.
    destruct (store_fault w) eqn:Hf; simpl.
    + unfold stored. by rewrite Hf.
    + rewrite (stored_collection _ _ _ Hf). by apply update_one_again.
  - rewrite (store_run_no_key _ _ Hk). simpl. by rewrite (store_run_no_key _ _ Hk).
Qed.

(** ** A store that fails *)

(** C4, as stated, fails: with the server down, [store_inmate_details]
    returns normally for the record of Scenario A, no failure of the kind
    StorageError reaches the thread, and the thread queues the display of the
    record, not a failure notification. *)
Lemma store_failure_swallowed :
  let w0 := Pages.idle (Pages.serve "123456" Pages.jane_page) (Some Pages.server_down) in
  store_fault w0 = Some Pages.server_down
  ∧ (store_inmate_details Pages.jane_record w0).1 = Ret tt
  ∧ ¬ typed_failure "StorageError" (store_inmate_details Pages.jane_record w0).1
  ∧ after_queue (fetch_and_store_inmate_details "123456" w0).2
    = [CbDisplay Pages.jane_record].
Proof.
  repeat split; try (vm_compute; reflexivity).
  intros [msg H]. vm_compute in H. discriminate.
Qed.

(** C4, amended. When the store fails (unreachable, or the write rejected),
    [store_inmate_details] catches the exception itself and returns normally
    after its single [update_one] call; the thread is not told, so it queues
    the display of the record as for a stored one; the collection is left as
    it was and no second write is tried. *)
Theorem store_failure_not_surfaced dc soup d e w :
  responses w (detail_url dc) = Ret soup →
  inmate_details_of_soup soup dc = Ret (PDict d) → d ≠ ∅ →
  store_fault w = Some e →
  store_inmate_details d w = (Ret tt, set_update_calls S w)
  ∧ fetch_and_store_inmate_details dc w
    = (Ret tt, enqueue (CbDisplay d) (set_update_calls S (note_request dc w))).
Proof.
  intros Hw Hrun Hd He.
  pose proof (extracted_key _ _ _ Hrun Hd) as Hk.
  split.
  - rewrite (store_run _ _ _ Hk). unfold stored. by rewrite He.
  - rewrite worker_run. cbn zeta. rewrite Hw, Hrun.
    rewrite (proj2 (truthy_dict _) Hd), Hk.
    unfold stored. simpl. by rewrite He.
Qed.

Lemma store_failure_not_surfaced_witness :
  let w0 := Pages.idle (Pages.serve "123456" Pages.jane_page) (Some Pages.server_down) in
  store_inmate_details Pages.jane_record w0 = (Ret tt, set_update_calls S w0).
Proof.
  apply (store_failure_not_surfaced "123456" Pages.jane_page Pages.jane_record
           Pages.server_down).
  - reflexivity.
  - vm_compute. reflexivity.
  - vm_compute. discriminate.
  - reflexivity.
Defined.

(** ** The request and the hand-over to the presentation context *)

(** C8. For the empty key the request is rejected on the spot with the
    "Input Error" warning, shown by the caller itself: no thread is started,
    no page is requested, nothing is queued and the store is not touched. *)
Theorem empty_key_rejected w :
  let w' := fetch_and_display_inmate_details EmptyString w in
  screen w' = screen w ++ [ShowWarning "Input Error" "Please enter a DC number."]
  ∧ threads w' = threads w
  ∧ requested w' = requested w
  ∧ collection w' = collection w
  ∧ update_calls w' = update_calls w
  ∧ after_queue w' = after_queue w.
Proof.
  unfold fetch_and_display_inmate_details. simpl Str.is_empty. cbn iota.
  unfold set_screen. simpl. repeat split.
Qed.

(** Any other key starts one thread and shows nothing. *)
Lemma key_starts_thread dc w :
  dc ≠ EmptyString →
  fetch_and_display_inmate_details dc w = set_threads (fun t => t ++ [dc]) w.
Proof.
  intros Hdc. unfold fetch_and_display_inmate_details.
  by rewrite (proj2 (is_empty_false _) Hdc).
Qed.

(** What [fetch_inmate_details] hands to the thread. *)
Lemma fetch_outcome dc w :
  (fetch_inmate_details dc w).1
  = match responses w (detail_url dc) with
    | Ret soup => inmate_details_of_soup soup dc
    | Raise e => Raise e
    end.
Proof.
  unfold fetch_inmate_details, io_bind, requests_get, io_lift.
  by destruct (responses w (detail_url dc)).
Qed.

(** C9. A thread that finishes, with a record or with an error, makes no
    call on the presentation layer and changes none of its state: it hands
    over its outcome as exactly one callback queued with [root.after] (the
    display of the record when there is one, the failure dialog for a falsy
    result, the error dialog for an exception) and lets no exception
    escape. *)
Theorem outcome_only_queued dc w :
  let w' := (fetch_and_store_inmate_details dc w).2 in
  (fetch_and_store_inmate_details dc w).1 = Ret tt
  ∧ screen w' = screen w
  ∧ threads w' = threads w
  ∧ ∃ cb, after_queue w' = after_queue w ++ [cb]
          ∧ match (fetch_inmate_details dc w).1 with
            | Ret v => if truthy v then ∃ d, v = PDict d ∧ cb = CbDisplay d
                       else cb = CbFailed
            | Raise e => cb = CbError e
            end.
Proof.
  cbn zeta. rewrite fetch_outcome, worker_run. cbn zeta.
  split; [reflexivity|].
  destruct (responses w (detail_url dc)) as [soup|e]; simpl; [|eauto 6].
  destruct (inmate_details_of_soup soup dc) as [[|d]|e] eqn:Hrun; simpl;
    [eauto 6| |eauto 6].
  case_bool_decide as Hd; simpl; [eauto 6|].
  rewrite (extracted_key _ _ _ Hrun Hd).
  unfold stored. destruct (store_fault _); simpl.
  - do 2 (split; [reflexivity|]). exists (CbDisplay d). eauto.
  - do 2 (split; [reflexivity|]). exists (CbDisplay d). eauto.
Qed.

(** The main loop shows only what a queued callback holds, and takes that
    callback off the queue. *)
Lemma mainloop_shows_queued w w' :
  mainloop_step w w' →
  ∃ cb q, after_queue w = cb :: q ∧ after_queue w' = q
          ∧ (screen w' = screen w
             ∨ screen w' = screen w ++
                 [match cb with
                  | CbDisplay d => Display d
                  | CbFailed =>
                      ShowError "Error" "Failed to retrieve valid inmate details."
                  | CbError e =>
                      ShowError "Error" ("An error occurred: " +:+ exn_str e)
                  end]).
Proof. destruct 1 as [w d q H|w q H|w e q H|w e q H]; simpl; eauto 8. Qed.

(** * Further properties of the code *)

(** ** [store_inmate_details] and the collection *)

Section store_more.
Import Mongo.

Lemma matches_true k v d : matches k v d = true ↔ d !! k = Some v.
Proof. unfold matches. apply bool_decide_eq_true. Qed.

Lemma matches_other k v v' d : d !! k = Some v → v' ≠ v → matches k v' d = false.
Proof.
  intros Hd Hv. unfold matches. apply bool_decide_eq_false. congruence.
Qed.

(** An update under one key does not change which documents another key
    selects. *)
Lemma update_first_other k v v' upd docs docs' :
  upd !! k = Some v → v' ≠ v →
  update_first k v upd docs = Some docs' →
  find_docs k v' docs' = find_docs k v' docs.
Proof.
  intros Hk Hv. unfold find_docs. revert docs'.
  induction docs as [|d ds IH]; simpl; intros docs' H; [discriminate|].
  destruct (matches k v d) eqn:Hd.
  - injection H as <-. simpl.
    rewrite (matches_other k v v' (set_fields upd d)) by (by apply set_fields_lookup || done).
    apply matches_true in Hd. by rewrite (matches_other k v v' d).
  - destruct (update_first k v upd ds) as [ds'|]; [simpl in H|discriminate].
    injection H as <-. simpl. by rewrite (IH ds' eq_refl).
Qed.

Lemma find_docs_update_other k v v' upd docs :
  upd !! k = Some v → v' ≠ v →
  find_docs k v' (update_one k v upd true docs) = find_docs k v' docs.
Proof.
  intros Hk Hv. unfold update_one.
  destruct (update_first k v upd docs) as [docs'|] eqn:H.
  - by apply (update_first_other k v v' upd docs docs').
  - unfold find_docs. rewrite List.filter_app. simpl.
    rewrite (matches_other k v v' (set_fields upd {[k := v]}))
      by (by apply set_fields_lookup || done).
    by rewrite app_nil_r.
Qed.

(** Under its own key an update acts on the selected documents as it acts on
    the collection. *)
Lemma update_first_same k v upd docs :
  upd !! k = Some v →
  match update_first k v upd docs with
  | Some docs' => update_first k v upd (find_docs k v docs) = Some (find_docs k v docs')
  | None => find_docs k v docs = []
  end.
Proof.
  intros Hk. unfold find_docs. induction docs as [|d ds IH]; simpl; [reflexivity|].
  destruct (matches k v d) eqn:Hd; simpl.
  - by rewrite Hd, (set_fields_matches _ _ _ _ Hk).
  - destruct (update_first k v upd ds) as [ds'|]; simpl.
    + by rewrite Hd.
    + exact IH.
Qed.

Lemma find_docs_update_same k v upd docs :
  upd !! k = Some v →
  find_docs k v (update_one k v upd true docs)
  = update_one k v upd true (find_docs k v docs).
Proof.
  intros Hk. unfold update_one.
  pose proof (update_first_same k v upd docs Hk) as H.
  destruct (update_first k v upd docs) as [docs'|].
  - by rewrite H.
  - rewrite H. simpl. unfold find_docs. rewrite List.filter_app.
    fold (find_docs k v docs). rewrite H. simpl.
    by rewrite (set_fields_matches _ _ _ _ Hk).
Qed.

Lemma update_first_length k v upd docs docs' :
  update_first k v upd docs = Some docs' → length docs' = length docs.
Proof.
  revert docs'. induction docs as [|d ds IH]; simpl; intros docs' H; [discriminate|].
  destruct (matches k v d).
  - by injection H as <-.
  - destruct (update_first k v upd ds) as [ds'|]; [simpl in H|discriminate].
    injection H as <-. simpl. by rewrite (IH ds' eq_refl).
Qed.

Lemma update_first_None k v upd docs :
  update_first k v upd docs = None ↔ find_docs k v docs = [].
Proof.
  unfold find_docs. induction docs as [|d ds IH]; simpl; [done|].
  destruct (matches k v d); [split; discriminate|].
  destruct (update_first k v upd ds); simpl.
  - split; [discriminate|]. intros H. by apply IH in H.
  - split; [|done]. intros _. by apply IH.
Qed.

Lemma update_one_length k v upd docs :
  length (update_one k v upd true docs)
  = match find_docs k v docs with
    | [] => S (length docs)
    | _ :: _ => length docs
    end.
Proof.
  unfold update_one. destruct (update_first k v upd docs) as [docs'|] eqn:H.
  - rewrite (update_first_length _ _ _ _ _ H).
    destruct (find_docs k v docs) eqn:E; [|reflexivity].
    apply (update_first_None k v upd) in E. congruence.
  - rewrite (proj1 (update_first_None _ _ _ _) H).
    rewrite length_app. simpl. lia.
Qed.

Lemma find_docs_idem k v docs : find_docs k v (find_docs k v docs) = find_docs k v docs.
Proof.
  unfold find_docs. induction docs as [|d ds IH]; simpl; [reflexivity|].
  destruct (matches k v d) eqn:Hd; simpl; [rewrite Hd|]; by rewrite ?IH.
Qed.

Lemma update_one_unique v upd docs :
  upd !! "DC Number" = Some v →
  unique_keys docs → unique_keys (update_one "DC Number" v upd true docs).
Proof.
  intros Hk Hu v'. destruct (decide (v' = v)) as [->|Hv].
  - rewrite (find_docs_update_same _ _ _ _ Hk), update_one_length, find_docs_idem.
    specialize (Hu v). destruct (find_docs "DC Number" v docs); simpl in *; lia.
  - rewrite (find_docs_update_other _ _ _ _ _ Hk Hv). apply Hu.
Qed.

End store_more.

Section store_world.
Import Mongo.

(** What one call does to the collection, in every case. *)
Lemma store_collection r w :
  collection (store_inmate_details r w).2
  = match r !! "DC Number", store_fault w with
    | Some k, None => update_one "DC Number" k r true (collection w)
    | _, _ => collection w
    end.
Proof.
  destruct (r !! "DC Number") as [k|] eqn:Hk.
  - rewrite (store_run _ _ _ Hk). simpl. unfold stored.
    by destruct (store_fault w).
  - by rewrite (store_run_no_key _ _ Hk).
Qed.

Lemma store_fault_kept r w : store_fault (store_inmate_details r w).2 = store_fault w.
Proof.
  destruct (r !! "DC Number") as [k|] eqn:Hk.
  - rewrite (store_run _ _ _ Hk). apply stored_fault.
  - by rewrite (store_run_no_key _ _ Hk).
Qed.

Lemma store_unique r w :
  unique_keys (collection w) → unique_keys (collection (store_inmate_details r w).2).
Proof.
  intros Hu. rewrite store_collection.
  destruct (r !! "DC Number") as [k|] eqn:Hk; [|exact Hu].
  destruct (store_fault w); [exact Hu|]. by apply update_one_unique.
Qed.

End store_world.

(** X1. Storing a dictionary leaves the documents under every other key as
    they were, in the same order. *)
Theorem upsert_keeps_other_keys r w v :
  r !! "DC Number" ≠ Some v →
  Mongo.find_docs "DC Number" v (collection (store_inmate_details r w).2)
  = Mongo.find_docs "DC Number" v (collection w).
Proof.
  intros Hv. rewrite store_collection.
  destruct (r !! "DC Number") as [k|] eqn:Hk; [|reflexivity].
  destruct (store_fault w); [reflexivity|].
  apply find_docs_update_other; congruence.
Qed.

Lemma upsert_keeps_other_keys_witness :
  let w := set_collection (fun _ => [Pages.with_alias])
             (Pages.idle (Pages.serve "123456" Pages.jane_page) None) in
  Mongo.find_docs "DC Number" (VStr "123456")
    (collection (store_inmate_details
                   (<["DC Number" := VStr "999999"]> Pages.jane_record) w).2)
  = [Pages.with_alias].
Proof.
  cbn zeta.
  rewrite (upsert_keeps_other_keys
             (<["DC Number" := VStr "999999"]> Pages.jane_record) _ (VStr "123456")).
  - reflexivity.
  - vm_compute. discriminate.
Defined.

(** X2. A call never removes a document and adds at most one: the
    collection grows by one exactly when the dictionary has its key, the
    store works and no document was stored under that key. *)
Theorem upsert_grows_by_at_most_one r w :
  length (collection (store_inmate_details r w).2)
  = length (collection w)
    + match r !! "DC Number", store_fault w with
      | Some k, None =>
          match Mongo.find_docs "DC Number" k (collection w) with
          | [] => 1
          | _ :: _ => 0
          end
      | _, _ => 0
      end.
Proof.
  rewrite store_collection.
  destruct (r !! "DC Number") as [k|]; [|lia].
  destruct (store_fault w); [lia|].
  rewrite update_one_length.
  destruct (Mongo.find_docs "DC Number" k (collection w)); lia.
Qed.

(** X3. Whatever dictionaries are stored one after the other, a collection
    in which no two documents share a key stays so; in particular the
    program never creates a second document for a key. *)
Theorem upserts_keep_keys_unique rs w :
  unique_keys (collection w) → unique_keys (collection (store_all rs w)).
Proof.
  unfold store_all. revert w. induction rs as [|r rs IH]; simpl; intros w Hu.
  - exact Hu.
  - apply IH. by apply store_unique.
Qed.

Lemma upserts_keep_keys_unique_witness :
  unique_keys
    (collection
       (store_all [Pages.with_alias; Pages.jane_record; Pages.without_alias]
          (Pages.idle (Pages.serve "123456" Pages.jane_page) None))).
Proof.
  apply (upserts_keep_keys_unique
           [Pages.with_alias; Pages.jane_record; Pages.without_alias]).
  intros v. simpl. lia.
Defined.

(** X4. Two dictionaries with different keys can be stored in either order:
    under every key the collection then holds the same documents. *)
Theorem upserts_of_distinct_keys_commute r1 r2 k1 k2 w v :
  r1 !! "DC Number" = Some k1 → r2 !! "DC Number" = Some k2 → k1 ≠ k2 →
  Mongo.find_docs "DC Number" v
    (collection (store_inmate_details r2 (store_inmate_details r1 w).2).2)
  = Mongo.find_docs "DC Number" v
      (collection (store_inmate_details r1 (store_inmate_details r2 w).2).2).
Proof.
  intros H1 H2 Hk.
  rewrite !store_collection, !store_fault_kept, H1, H2.
  destruct (store_fault w); [reflexivity|].
  destruct (decide (v = k1)) as [->|Hv1].
  - rewrite (find_docs_update_other _ _ _ _ _ H2 Hk).
    rewrite !(find_docs_update_same _ _ _ _ H1).
    by rewrite (find_docs_update_other _ _ _ _ _ H2 Hk).
  - rewrite (find_docs_update_other _ k1 v r1 _ H1 Hv1).
    destruct (decide (v = k2)) as [->|Hv2].
    + rewrite !(find_docs_update_same _ _ _ _ H2).
      by rewrite (find_docs_update_other _ k1 k2 r1 _ H1 Hv1).
    + rewrite !(find_docs_update_other _ k2 v r2 _ H2 Hv2).
      by rewrite (find_docs_update_other _ k1 v r1 _ H1 Hv1).
Qed.

Lemma upserts_of_distinct_keys_commute_witness :
  let w := Pages.idle (Pages.serve "123456" Pages.jane_page) None in
  let other := <["DC Number" := VStr "999999"]> Pages.jane_record in
  Mongo.find_docs "DC Number" (VStr "123456")
    (collection (store_inmate_details other
                   (store_inmate_details Pages.jane_record w).2).2)
  = Mongo.find_docs "DC Number" (VStr "123456")
      (collection (store_inmate_details Pages.jane_record
                     (store_inmate_details other w).2).2).
Proof.
  apply (upserts_of_distinct_keys_commute Pages.jane_record
           (<["DC Number" := VStr "999999"]> Pages.jane_record)
           (VStr "123456") (VStr "999999")).
  - reflexivity.
  - reflexivity.
  - discriminate.
Defined.

Lemma record_plain d : is_record d → plain_fields d.
Proof.
  intros R k Hk. apply elem_of_dom in Hk. rewrite R in Hk.
  unfold record_fields in Hk. set_unfold in Hk.
  destruct_or!; subst; reflexivity.
Qed.

Lemma jane_is_record : is_record Pages.jane_record.
Proof. vm_compute. reflexivity. Qed.

(** X5. After a dictionary whose field names are plain (no dot, no leading
    dollar sign, not [_id]) was stored in a working store, a document is
    found under its key and every field of the dictionary is read back from
    it with the value written. *)
Theorem upsert_then_find r k w :
  plain_fields r →
  r !! "DC Number" = Some k → store_fault w = None →
  ∃ d, find_one k (collection (store_inmate_details r w).2) = Some d
       ∧ ∀ f x, r !! f = Some x → d !! f = Some x.
Proof.
  intros _ Hk Hup. rewrite store_collection, Hk, Hup.
  rewrite (find_one_update_one _ _ _ Hk). eexists. split; [reflexivity|].
  intros f x Hf. by apply set_fields_lookup.
Qed.

Lemma upsert_then_find_witness :
  ∃ d, find_one (VStr "123456")
         (collection (store_inmate_details Pages.jane_record
                        (Pages.idle (Pages.serve "123456" Pages.jane_page) None)).2)
       = Some d
       ∧ d !! "Aliases" = Some (VStr "Jane D.").
Proof.
  destruct (upsert_then_find Pages.jane_record (VStr "123456")
              (Pages.idle (Pages.serve "123456" Pages.jane_page) None)
              (record_plain _ jane_is_record) eq_refl eq_refl) as (d & Hd & Hf).
  exists d. split; [exact Hd|]. apply Hf. reflexivity.
Defined.

(** ** [fetch_inmate_details]: when a record is built *)

Section extraction_more.
Local Open Scope py_scope.

Lemma for_append_inv {A B} (f : A -> result B) l :
  ∀ acc out, for_append f l acc = Ret out →
  ∃ ys, out = acc ++ ys ∧ Forall2 (fun x y => f x = Ret y) l ys.
Proof.
  induction l as [|x l IH]; simpl; intros acc out H.
  - injection H as <-. exists []. by rewrite app_nil_r.
  - destruct (f x) as [y|e] eqn:Hx; simpl in H; [|discriminate].
    destruct (IH _ _ H) as (ys & -> & Hys).
    exists (y :: ys). rewrite <- app_assoc. split; [reflexivity|].
    by constructor.
Qed.

(** The body of the sentence loop succeeds exactly on rows of six or more
    cells, and then maps the first six positionally. *)
Lemma sentence_row_wide row :
  6 ≤ length (find_all (named "td") row.1) →
  sentence_row row = Ret (positional sentence_schema row).
Proof.
  unfold sentence_row, positional.
  destruct (find_all (named "td") row.1) as [|c0 [|c1 [|c2 [|c3 [|c4 [|c5 rest]]]]]];
    simpl; try lia.
  intros _. reflexivity.
Qed.

Lemma incarceration_row_wide row :
  2 ≤ length (find_all (named "td") row.1) →
  incarceration_row row = Ret (positional incarceration_schema row).
Proof.
  unfold incarceration_row, positional.
  destruct (find_all (named "td") row.1) as [|c0 [|c1 rest]]; simpl; try lia.
  intros _. reflexivity.
Qed.

Lemma incarceration_row_short row :
  length (find_all (named "td") row.1) < 2 → incarceration_row row = Raise IndexError.
Proof.
  unfold incarceration_row.
  destruct (find_all (named "td") row.1) as [|c0 [|c1 ?]];
    simpl; intros; try reflexivity; lia.
Qed.

Lemma sentence_row_Ret row m :
  sentence_row row = Ret m → 6 ≤ length (find_all (named "td") row.1).
Proof.
  intros H. destruct (decide (6 ≤ length (find_all (named "td") row.1))) as [|Hn];
    [done|].
  rewrite sentence_row_short in H by lia. discriminate.
Qed.

Lemma incarceration_row_Ret row m :
  incarceration_row row = Ret m → 2 ≤ length (find_all (named "td") row.1).
Proof.
  intros H. destruct (decide (2 ≤ length (find_all (named "td") row.1))) as [|Hn];
    [done|].
  rewrite incarceration_row_short in H by lia. discriminate.
Qed.

Lemma history_of_inv soup i body out :
  history_of soup i body = Ret out →
  ∃ rows, table_rows soup i = Some rows
          ∧ Forall2 (fun row m => body row = Ret m) rows out.
Proof.
  unfold history_of, table_rows.
  destruct (find (with_id "div" i) soup) as [d|]; [simpl|discriminate].
  destruct (find (named "table") d.1) as [t|]; [simpl|discriminate].
  intros H. apply for_append_inv in H as (ys & -> & Hys). eauto.
Qed.

Lemma Forall2_rows {B} (P : element -> Prop) (Q : element -> B -> Prop) rows out :
  (∀ row m, Q row m → P row) → Forall2 Q rows out → Forall P rows.
Proof. intros HQ. induction 1; constructor; eauto. Qed.

(** The loop raises [IndexError] as soon as one row is too short. *)
Lemma for_append_short {B} (body : element -> result B) n (rows : list element) :
  (∀ row : element, n ≤ length (find_all (named "td") row.1) → ∃ m, body row = Ret m) →
  (∀ row : element, length (find_all (named "td") row.1) < n →
                    body row = Raise IndexError) →
  Exists (fun row : element => length (find_all (named "td") row.1) < n) rows →
  ∀ acc, for_append body rows acc = Raise IndexError.
Proof.
  intros Hwide Hshort. induction rows as [|row rows IH]; intros Hex acc.
  - by apply Exists_nil in Hex.
  - simpl. destruct (decide (length (find_all (named "td") row.1) < n)) as [Hlt|Hge].
    + by rewrite (Hshort _ Hlt).
    + destruct (Hwide row) as [m ->]; [lia|]. simpl. apply IH.
      apply Exists_cons in Hex as [?|?]; [contradiction|done].
Qed.

(** The extraction from a page that has everything up to the sentence
    table. *)
Lemma extraction_from_fields soup dc name race sex birth :
  has_marker soup →
  field_value soup "Name:" = Some name → name ≠ EmptyString →
  field_value soup "Race:" = Some race → race ≠ EmptyString →
  field_value soup "Sex:" = Some sex →
  field_value soup "Birth Date:" = Some birth →
  inmate_details_of_soup soup dc =
    (sentence_history <~ history_of soup DIV_CURRENT_PRISON sentence_row;
     alias_div <~ deref "find" (find (with_id "div" DIV_ALIAS) soup);
     p <~ deref "text" (find (named "p") alias_div.1);
     incarceration_history <~ history_of soup DIV_INCARCERATION incarceration_row;
     Ret (PDict (assembled dc name race sex birth (Str.strip (text p.1))
                   sentence_history incarceration_history))).
Proof.
  intros Hm Hname Hn Hrace Hr Hsex Hbirth.
  unfold inmate_details_of_soup.
  destruct (has_marker_title _ Hm) as (t & s & -> & Hs & Hc). simpl.
  rewrite Hs, Hc.
  destruct (field_value_label _ _ _ Hname) as [th Hth].
  rewrite Hth, (name_value _ _ Hth).
  rewrite (proj2 (labelled_value_Ret _ _ _) Hname). simpl.
  rewrite (proj2 (labelled_value_Ret _ _ _) Hrace). simpl.
  rewrite (proj2 (labelled_value_Ret _ _ _) Hsex). simpl.
  rewrite (proj2 (labelled_value_Ret _ _ _) Hbirth). simpl.
  by rewrite (proj2 (is_empty_false _) Hn), (proj2 (is_empty_false _) Hr).
Qed.

End extraction_more.

(** From a page of that kind the record of the specification is built. *)
Lemma extractable_record soup dc :
  extractable soup →
  inmate_details_of_soup soup dc = Ret (PDict (expected_record soup dc)).
Proof.
  intros (Hm & (name & Hname & Hn) & (race & Hrace & Hr) & [sex Hsex]
          & [birth Hbirth] & (srows & Hsrows & Hsw) & [al Hal]
          & (irows & Hirows & Hiw)).
  rewrite (extraction_from_fields _ dc _ _ _ _ Hm Hname Hn Hrace Hr Hsex Hbirth).
  rewrite (history_of_rows _ _ _ (positional sentence_schema) _ Hsrows).
  2:{ eapply Forall_impl; [exact Hsw|]. intros row. apply sentence_row_wide. }
  rewrite (history_of_rows _ _ _ (positional incarceration_schema) _ Hirows).
  2:{ eapply Forall_impl; [exact Hiw|]. intros row. apply incarceration_row_wide. }
  unfold expected_record. rewrite Hname, Hrace, Hsex, Hbirth, Hal, Hsrows, Hirows.
  unfold alias_text, alias_block in Hal.
  destruct (find (with_id "div" DIV_ALIAS) soup) as [ad|]; [simpl in *|done].
  destruct (find (named "p") ad.1) as [p|]; [simpl in *|done].
  injection Hal as <-. reflexivity.
Qed.

(** X6. [fetch_inmate_details] builds a record exactly from the pages that
    bear the marker, have the four labelled values with [Name] and [Race]
    not empty, the alias paragraph, and two tables whose rows after the
    first have at least six and at least two cells; the record is then the
    one of the specification, cells beyond the schema being dropped. *)
Theorem extraction_succeeds_iff soup dc :
  (extractable soup →
   inmate_details_of_soup soup dc = Ret (PDict (expected_record soup dc)))
  ∧ (yields_record (inmate_details_of_soup soup dc) → extractable soup).
Proof.
  split; [apply extractable_record|].
  intros (d & Hrun & Hd).
  apply extraction_inv in Hrun as [[-> _]|Hrun]; [done|].
  destruct Hrun as (name & race & sex & birth & al & sh & ih & _ & Hm
                    & Hname & Hn & Hrace & Hr & Hsex & Hbirth & Hsh & Hal & Hih).
  apply labelled_value_Ret in Hname, Hrace, Hsex, Hbirth.
  apply history_of_inv in Hsh as (srows & Hsrows & Hs2).
  apply history_of_inv in Hih as (irows & Hirows & Hi2).
  repeat split; eauto.
  - exists srows. split; [done|].
    eapply Forall2_rows; [|exact Hs2]. intros row m. apply sentence_row_Ret.
  - exists irows. split; [done|].
    eapply Forall2_rows; [|exact Hi2]. intros row m. apply incarceration_row_Ret.
Qed.

Lemma extraction_succeeds_iff_witness :
  inmate_details_of_soup Pages.wide_page "123456"
  = Ret (PDict (<["Aliases" := VStr EmptyString]> Pages.jane_record)).
Proof.
  rewrite (proj1 (extraction_succeeds_iff Pages.wide_page "123456")).
  - vm_compute. reflexivity.
  - repeat split;
      try (eexists; split; [vm_compute; reflexivity|]);
      try (eexists; vm_compute; reflexivity);
      try discriminate.
    + repeat constructor.
    + repeat constructor.
Defined.

(** X7. A record returned by [fetch_inmate_details] has exactly the eight
    fields of the program, and its [DC Number] is the key that was asked
    for, as given (it is not read from the page and not trimmed). *)
Theorem extracted_fields soup dc d :
  inmate_details_of_soup soup dc = Ret (PDict d) → d ≠ ∅ →
  dom d = list_to_set
            ["DC Number"; "Name"; "Race"; "Sex"; "Birth Date";
             "Current Prison Sentence History"; "Aliases"; "Incarceration History"]
  ∧ d !! "DC Number" = Some (VStr dc).
Proof.
  intros H Hd. apply extraction_inv in H as [[-> _]|H]; [done|].
  destruct H as (name & race & sex & birth & al & sh & ih & -> & _).
  split; [|reflexivity].
  unfold assembled. rewrite !dom_insert_L, dom_empty_L. set_solver.
Qed.

Lemma extracted_fields_witness :
  Pages.jane_record !! "DC Number" = Some (VStr "123456").
Proof.
  apply (extracted_fields Pages.jane_page "123456").
  - vm_compute. reflexivity.
  - vm_compute. discriminate.
Defined.

(** X8. When the page has the marker and the four labelled values but a row
    of the sentence table after the first has fewer than six cells, the
    whole extraction raises [IndexError]: no record is returned, also not
    one without the short row. *)
Theorem short_row_raises soup dc rows :
  has_marker soup →
  (∃ name, field_value soup "Name:" = Some name ∧ name ≠ EmptyString) →
  (∃ race, field_value soup "Race:" = Some race ∧ race ≠ EmptyString) →
  is_Some (field_value soup "Sex:") →
  is_Some (field_value soup "Birth Date:") →
  table_rows soup DIV_CURRENT_PRISON = Some rows →
  Exists (fun row : element => length (find_all (named "td") row.1) < 6) rows →
  inmate_details_of_soup soup dc = Raise IndexError.
Proof.
  intros Hm (name & Hname & Hn) (race & Hrace & Hr) [sex Hsex] [birth Hbirth]
         Hrows Hex.
  rewrite (extraction_from_fields _ dc _ _ _ _ Hm Hname Hn Hrace Hr Hsex Hbirth).
  unfold history_of at 1. unfold table_rows in Hrows.
  destruct (find (with_id "div" DIV_CURRENT_PRISON) soup) as [d|];
    [simpl in *|discriminate].
  destruct (find (named "table") d.1) as [t|]; [simpl in *|discriminate].
  injection Hrows as <-.
  rewrite (for_append_short sentence_row 6); [reflexivity| | |exact Hex].
  - intros row Hw. eexists. by apply sentence_row_wide.
  - apply sentence_row_short.
Qed.

Lemma short_row_raises_witness :
  inmate_details_of_soup Pages.short_row_page "123456" = Raise IndexError.
Proof.
  eapply (short_row_raises Pages.short_row_page "123456").
  - eexists. split; vm_compute; reflexivity.
  - eexists. split; [vm_compute; reflexivity|discriminate].
  - eexists. split; [vm_compute; reflexivity|discriminate].
  - eexists. vm_compute. reflexivity.
  - eexists. vm_compute. reflexivity.
  - vm_compute. reflexivity.
  - apply Exists_cons_tl, Exists_cons_hd. vm_compute. lia.
Defined.

(** ** Blank values *)

Lemma lstrip_blank s : blank s = true → Str.lstrip s = EmptyString.
Proof.
  induction s as [|c s IH]; simpl; [reflexivity|].
  intros [Hc Hs]%andb_true_iff. rewrite Hc. by apply IH.
Qed.

Lemma strip_blank s : blank s = true → Str.strip s = EmptyString.
Proof. intros H. unfold Str.strip. by rewrite (lstrip_blank _ H). Qed.

Lemma field_value_raw soup label :
  field_value soup label = Str.strip <$> raw_value soup label.
Proof.
  unfold field_value, raw_value.
  destruct (find _ soup) as [th|]; simpl; [|reflexivity].
  by destruct (find_next_sibling "td" th).
Qed.

(** X9. A value of white space only counts as empty: when the page has the
    marker and the four value cells, and the cell of [Name] or of [Race]
    holds nothing but white space, [fetch_inmate_details] returns [None]. *)
Theorem blank_required_returns_none soup dc n r :
  has_marker soup →
  raw_value soup "Name:" = Some n →
  raw_value soup "Race:" = Some r →
  is_Some (raw_value soup "Sex:") →
  is_Some (raw_value soup "Birth Date:") →
  blank n = true ∨ blank r = true →
  inmate_details_of_soup soup dc = Ret PNone.
Proof.
  intros Hm Hn Hr [sex Hs] [birth Hb] Hblank.
  assert (∀ label x, raw_value soup label = Some x →
                     labelled_value soup label = Ret (Str.strip x)) as Hval.
  { intros label x Hx. apply labelled_value_Ret. by rewrite field_value_raw, Hx. }
  unfold inmate_details_of_soup.
  destruct (has_marker_title _ Hm) as (t & s & -> & Hs' & Hc). simpl.
  rewrite Hs', Hc.
  destruct (field_value_label soup "Name:" (Str.strip n)) as [th Hth].
  { by rewrite field_value_raw, Hn. }
  rewrite Hth, (name_value _ _ Hth).
  rewrite (Hval _ _ Hn), (Hval _ _ Hr), (Hval _ _ Hs), (Hval _ _ Hb). simpl.
  destruct Hblank as [H|H]; rewrite (strip_blank _ H); simpl.
  - reflexivity.
  - by rewrite orb_true_r.
Qed.

Lemma blank_required_returns_none_witness :
  inmate_details_of_soup Pages.blank_name_page "123456" = Ret PNone.
Proof.
  eapply (blank_required_returns_none Pages.blank_name_page "123456").
  - eexists. split; vm_compute; reflexivity.
  - vm_compute. reflexivity.
  - vm_compute. reflexivity.
  - eexists. vm_compute. reflexivity.
  - eexists. vm_compute. reflexivity.
  - left. vm_compute. reflexivity.
Defined.

(** ** The thread and the button *)

(** X10. A run of the thread requests the page of its key exactly once,
    whatever comes back. It issues one write when the fetch returned a
    record, and otherwise none, leaving the collection as it was. *)
Theorem thread_effects dc w :
  let w' := (fetch_and_store_inmate_details dc w).2 in
  requested w' = requested w ++ [detail_url dc]
  ∧ match (fetch_inmate_details dc w).1 with
    | Ret v =>
        if truthy v then update_calls w' = S (update_calls w)
        else update_calls w' = update_calls w ∧ collection w' = collection w
    | Raise _ => update_calls w' = update_calls w ∧ collection w' = collection w
    end.
Proof.
  cbn zeta. rewrite fetch_outcome, worker_run. cbn zeta.
  destruct (responses w (detail_url dc)) as [soup|e]; simpl; [|auto].
  destruct (inmate_details_of_soup soup dc) as [[|d]|e] eqn:Hrun; simpl; auto.
  case_bool_decide as Hd; simpl; [auto|].
  rewrite (extracted_key _ _ _ Hrun Hd).
  unfold stored. destruct (store_fault _); simpl; auto.
Qed.

Lemma string_app_length (s t : string) :
  String.length (s +:+ t) = String.length s + String.length t.
Proof. induction s as [|c s IH]; simpl; [reflexivity|]. by rewrite IH. Qed.

Lemma string_app_inj_r (s1 s2 t : string) : s1 +:+ t = s2 +:+ t → s1 = s2.
Proof.
  revert s2. induction s1 as [|c s1 IH]; intros [|c2 s2] H; simpl in *.
  - reflexivity.
  - apply (f_equal String.length) in H.
    rewrite (string_app_length EmptyString t),
      (string_app_length (String c2 s2) t) in H.
    simpl in H. lia.
  - apply (f_equal String.length) in H.
    rewrite (string_app_length EmptyString t),
      (string_app_length (String c s1) t) in H.
    simpl in H. lia.
  - injection H as -> H. f_equal. by apply IH.
Qed.

(** X11. Different keys are looked up at different addresses: the address
    of the detail page determines the key. *)
Theorem detail_url_injective a b : detail_url a = detail_url b → a = b.
Proof.
  unfold detail_url. intros H.
  apply (inj (String.app _)) in H. by apply string_app_inj_r in H.
Qed.

Lemma detail_url_injective_witness : "123456" = "123456".
Proof. apply (detail_url_injective "123456" "123456"). reflexivity. Defined.

Lemma press_all_snoc keys dc w :
  press_all (keys ++ [dc]) w = fetch_and_display_inmate_details dc (press_all keys w).
Proof. unfold press_all. by rewrite foldl_app. Qed.

(** X12. Pressing the button once per key of a list starts one thread for
    every key that is not empty, in the order of the list and without
    merging equal keys, and shows one warning for every empty key; the
    button itself requests no page, writes nothing and queues nothing. *)
Theorem presses_start_threads keys w :
  let w' := press_all keys w in
  threads w' = threads w ++ List.filter (fun k => negb (Str.is_empty k)) keys
  ∧ length (screen w')
    = length (screen w) + length (List.filter Str.is_empty keys)
  ∧ requested w' = requested w
  ∧ collection w' = collection w
  ∧ update_calls w' = update_calls w
  ∧ after_queue w' = after_queue w.
Proof.
  cbn zeta. induction keys as [|dc keys IH] using rev_ind.
  - simpl. rewrite app_nil_r. repeat split; lia.
  - rewrite press_all_snoc, !List.filter_app. simpl.
    destruct IH as (Ht & Hs & Hr & Hc & Hu & Hq).
    unfold fetch_and_display_inmate_details.
    destruct (Str.is_empty dc); simpl.
    + rewrite app_nil_r, !length_app, Ht, Hs. simpl. repeat split; auto; lia.
    + rewrite app_nil_r, Ht, Hs, app_assoc. repeat split; auto.
Qed.

(** ** [display_inmate_details] *)

Section display.
Local Open Scope py_scope.

Lemma scalar_labels_rows items :
  ∀ r fr, scalar_labels items r fr
          = (fr ++ label_rows r (scalars items), r + length (scalars items)).
Proof.
  induction items as [|[k [s|rows]] items IH]; intros r fr; simpl.
  - rewrite app_nil_r. f_equal. lia.
  - rewrite IH. unfold scalars. simpl. rewrite <- app_assoc. simpl. f_equal. lia.
  - rewrite IH. reflexivity.
Qed.

Lemma label_rows_lookup l :
  ∀ r i k s, l !! i = Some (k, s) →
  label_rows r l !! (2 * i) = Some (Label (k +:+ ":") (Place 0 (r + i) 1))
  ∧ label_rows r l !! (2 * i + 1) = Some (Label s (Place 1 (r + i) 1)).
Proof.
  induction l as [|[k0 s0] l IH]; intros r i k s Hi; [done|].
  destruct i as [|i]; simpl in *.
  - injection Hi as -> ->. by rewrite Nat.add_0_r.
  - destruct (IH (S r) i k s Hi) as [H1 H2].
    replace (i + S (i + 0)) with (S (2 * i)) by lia.
    replace (r + S i) with (S r + i) by lia. simpl. split; [exact H1|].
    replace (i + (i + 0) + 1) with (2 * i + 1) by lia. exact H2.
Qed.

Lemma label_rows_length r l : length (label_rows r l) = 2 * length l.
Proof.
  revert r. induction l as [|[k s] l IH]; intros r; simpl; [reflexivity|].
  rewrite IH. lia.
Qed.

Lemma line_of_complete item columns :
  complete columns item →
  line_of item columns = Ret ((fun c => default EmptyString (item !! c)) <$> columns).
Proof.
  induction 1 as [|c cols [v Hv] _ IH]; simpl; [reflexivity|].
  by rewrite Hv, IH.
Qed.

(** The first column an entry lacks is the one the [KeyError] names. *)
Lemma line_of_missing item done c rest :
  complete done item → item !! c = None →
  line_of item (done ++ c :: rest) = Raise (KeyError c).
Proof.
  induction 1 as [|c0 cols [v Hv] _ IH]; intros Hc; simpl.
  - by rewrite Hc.
  - by rewrite Hv, IH.
Qed.

Lemma insert_lines_complete columns rows :
  Forall (complete columns) rows →
  ∀ lines, insert_lines columns rows lines
           = (lines ++ ((fun item => (fun c => default EmptyString (item !! c)) <$> columns)
                          <$> rows), None).
Proof.
  induction 1 as [|item rows Hitem _ IH]; intros lines; simpl.
  - by rewrite app_nil_r.
  - rewrite (line_of_complete _ _ Hitem), IH, <- app_assoc. reflexivity.
Qed.

Lemma insert_lines_missing columns good item rest e :
  Forall (complete columns) good → line_of item columns = Raise e →
  ∀ lines, insert_lines columns (good ++ item :: rest) lines
           = (lines ++ ((fun item => (fun c => default EmptyString (item !! c)) <$> columns)
                          <$> good), Some e).
Proof.
  induction 1 as [|x good Hx _ IH]; intros He lines; simpl.
  - by rewrite He, app_nil_r.
  - rewrite (line_of_complete _ _ Hx), (IH He), <- app_assoc. reflexivity.
Qed.

End display.

Section display_frame.

(** The frame after [display_inmate_details] starts with the labels of the
    entries that are not lists. *)
Lemma display_frame_prefix details fr :
  ∃ rest, (display_inmate_details details fr).2
          = label_rows 0 (scalars details) ++ rest.
Proof.
  unfold display_inmate_details. rewrite scalar_labels_rows. simpl.
  set (labels := label_rows 0 (scalars details)).
  set (n := length (scalars details)).
  assert (∀ key columns st,
            ∃ rest, (history_table details key columns st).2.1 = st.1 ++ rest) as Hh.
  { intros key columns st. unfold history_table.
    destruct (item_get key details) as [[s|rows]|]; simpl.
    - destruct s as [|c s]; [|destruct columns]; simpl;
        rewrite <- app_assoc; eauto.
    - destruct (insert_lines columns rows []) as [lines [e|]]; simpl;
        rewrite <- app_assoc; eauto.
    - exists []. by rewrite app_nil_r. }
  match goal with
  | |- context [history_table ?d ?k ?c ?st] =>
      destruct (Hh k c st) as [rest1 H1];
      destruct (history_table d k c st) as [[[]|e] st1]; simpl in *
  end.
  - destruct (Hh "Incarceration History" incarceration_columns st1) as [rest2 H2].
    destruct (history_table details "Incarceration History"
                incarceration_columns st1) as [r st2]; simpl in *.
    rewrite H2, H1, <- app_assoc. eauto.
  - eauto.
Qed.

Lemma below_add r r' fr ws :
  below r fr → r ≤ r' →
  NoDup (frame_cells ws) →
  Forall (fun c : nat * nat => r ≤ c.2 < r') (frame_cells ws) →
  below r' (fr ++ ws).
Proof.
  intros [Hnd Hlt] Hr Hws Hrows. unfold below, frame_cells in *.
  rewrite bind_app. split.
  - apply NoDup_app. split; [exact Hnd|]. split; [|exact Hws].
    intros c Hc Hc'.
    rewrite Forall_forall in Hlt, Hrows.
    specialize (Hlt c Hc). specialize (Hrows c Hc'). lia.
  - apply Forall_app. split.
    + eapply Forall_impl; [exact Hlt|]. simpl. intros. lia.
    + eapply Forall_impl; [exact Hrows|]. simpl. intros. lia.
Qed.

Lemma two_cells_apart (r : nat) : NoDup [(0, r); (1, r)].
Proof.
  constructor; [|apply NoDup_singleton].
  intros H%list_elem_of_singleton. discriminate.
Qed.

Lemma below_label_rows l :
  ∀ r fr, below r fr → below (r + length l) (fr ++ label_rows r l).
Proof.
  induction l as [|[k s] l IH]; intros r fr H; simpl.
  - rewrite app_nil_r, Nat.add_0_r. exact H.
  - replace (r + S (length l)) with (S r + length l) by lia.
    change (fr ++ ?a :: ?b :: ?rest) with (fr ++ [a; b] ++ rest).
    rewrite app_assoc. apply IH.
    apply (below_add r); [exact H|lia| |].
    + apply two_cells_apart.
    + repeat constructor; simpl; lia.
Qed.

Lemma below_history details key columns st :
  below st.2 st.1 →
  below (history_table details key columns st).2.2
        (history_table details key columns st).2.1.
Proof.
  intros H. unfold history_table.
  assert (∀ lines,
    below (S (S st.2))
      ((st.1 ++ [Label (key +:+ ":") (Place 0 st.2 1)])
         ++ [Treeview columns lines (Some (Place 0 (S st.2) 2))])) as Hplaced.
  { intros lines. rewrite <- app_assoc. apply (below_add st.2); [exact H|lia| |].
    - apply (NoDup_app [(0, st.2)] [(0, S st.2); (1, S st.2)]).
      split; [apply NoDup_singleton|]. split.
      + intros c ->%list_elem_of_singleton Hc.
        apply elem_of_cons in Hc as [Hc|Hc%list_elem_of_singleton];
          injection Hc; lia.
      + constructor; [|apply NoDup_singleton].
        intros Hc%list_elem_of_singleton. discriminate.
    - repeat constructor; simpl; lia. }
  assert (∀ lines,
    below (S st.2)
      ((st.1 ++ [Label (key +:+ ":") (Place 0 st.2 1)])
         ++ [Treeview columns lines None])) as Hstopped.
  { intros lines. rewrite <- app_assoc. apply (below_add st.2); [exact H|lia| |].
    - apply NoDup_singleton.
    - repeat constructor; simpl; lia. }
  destruct (item_get key details) as [[s|rows]|]; simpl.
  - destruct s as [|c s]; [|destruct columns]; simpl; auto.
  - destruct (insert_lines columns rows []) as [lines [e|]]; simpl; auto.
  - exact H.
Qed.

End display_frame.

(** X13. In the frame that [display_inmate_details] leaves, also when it
    stops with an exception, the i-th entry of the dictionary that is not a
    list is shown on row i: its key followed by a colon in column 0 and its
    value in column 1; what the frame held before is gone. *)
Theorem display_scalar_rows details fr i k s :
  scalars details !! i = Some (k, s) →
  (display_inmate_details details fr).2 !! (2 * i)
    = Some (Label (k +:+ ":") (Place 0 i 1))
  ∧ (display_inmate_details details fr).2 !! (2 * i + 1)
    = Some (Label s (Place 1 i 1)).
Proof.
  intros Hi. destruct (display_frame_prefix details fr) as [rest ->].
  destruct (label_rows_lookup _ 0 _ _ _ Hi) as [H1 H2].
  split; (rewrite lookup_app_l; [assumption|]);
    rewrite label_rows_length; apply lookup_lt_Some in Hi; lia.
Qed.

Lemma display_scalar_rows_witness :
  (display_inmate_details
     (assembled_items "123456" "Jane Doe" "White" "Female" "1/1/1980" "Jane D."
        [Pages.jane_sentence] [])
     [Label "old" (Place 0 0 1)]).2 !! (2 * 5)
  = Some (Label "Aliases:" (Place 0 5 1)).
Proof.
  apply (display_scalar_rows _ _ 5 "Aliases" "Jane D."). reflexivity.
Defined.

(** X14. A dictionary without the two history keys is displayed without
    tables and without an error: the frame holds the pairs of labels and
    nothing else. *)
Theorem display_without_histories details fr :
  item_get "Current Prison Sentence History" details = None →
  item_get "Incarceration History" details = None →
  display_inmate_details details fr
  = (Ret tt, label_rows 0 (scalars details)).
Proof.
  intros H1 H2. unfold display_inmate_details, history_table.
  rewrite scalar_labels_rows, H1. simpl. by rewrite H2.
Qed.

Lemma display_without_histories_witness :
  display_inmate_details [("DC Number", VStr "123456"); ("Name", VStr "Jane Doe")]
    [Label "old" (Place 0 0 1)]
  = (Ret tt, [Label "DC Number:" (Place 0 0 1); Label "123456" (Place 1 0 1);
              Label "Name:" (Place 0 1 1); Label "Jane Doe" (Place 1 1 1)]).
Proof.
  apply (display_without_histories
           [("DC Number", VStr "123456"); ("Name", VStr "Jane Doe")]);
    reflexivity.
Defined.

(** X15. Whatever the dictionary, no two widgets that
    [display_inmate_details] places share a grid cell. *)
Theorem display_cells_apart details fr :
  NoDup (frame_cells (display_inmate_details details fr).2).
Proof.
  unfold display_inmate_details. rewrite scalar_labels_rows.
  assert (below (0 + length (scalars details))
            ([] ++ label_rows 0 (scalars details))) as H0.
  { apply below_label_rows. split; constructor. }
  match goal with
  | |- context [history_table ?d ?k ?c ?st] =>
      pose proof (below_history d k c st H0) as H1;
      destruct (history_table d k c st) as [[[]|e] st1]; simpl in H1 |- *
  end.
  - pose proof (below_history details "Incarceration History"
                  incarceration_columns st1 H1) as H2.
    destruct (history_table details "Incarceration History"
                incarceration_columns st1) as [r st2]; simpl in *.
    apply H2.
  - apply H1.
Qed.

Section display_record.

Lemma insert_lines_map columns (g : gmap string string -> list string) rows :
  Forall (fun item => line_of item columns = Ret (g item)) rows →
  ∀ lines, insert_lines columns rows lines = (lines ++ (g <$> rows), None).
Proof.
  induction 1 as [|item rows Hitem _ IH]; intros lines; simpl.
  - by rewrite app_nil_r.
  - rewrite Hitem, IH, <- app_assoc. reflexivity.
Qed.

(** The line of a sentence entry holds the first six cell texts of its row. *)
Lemma sentence_line row :
  6 ≤ length (find_all (named "td") row.1) →
  line_of (positional sentence_schema row) sentence_columns
  = Ret (take 6 (cell_texts row)).
Proof.
  unfold positional, cell_texts.
  destruct (find_all (named "td") row.1) as [|c0 [|c1 [|c2 [|c3 [|c4 [|c5 rest]]]]]];
    simpl; try lia.
  intros _. reflexivity.
Qed.

Lemma incarceration_line row :
  2 ≤ length (find_all (named "td") row.1) →
  line_of (positional incarceration_schema row) incarceration_columns
  = Ret (take 2 (cell_texts row)).
Proof.
  unfold positional, cell_texts.
  destruct (find_all (named "td") row.1) as [|c0 [|c1 rest]]; simpl; try lia.
  intros _. reflexivity.
Qed.

Lemma insert_lines_rows columns schema n (srows : list element) :
  (∀ row : element, n ≤ length (find_all (named "td") row.1) →
     line_of (positional schema row) columns = Ret (take n (cell_texts row))) →
  rows_at_least n srows →
  ∀ lines, insert_lines columns (positional schema <$> srows) lines
           = (lines ++ ((fun row => take n (cell_texts row)) <$> srows), None).
Proof.
  intros Hline. induction 1 as [|row srows Hrow _ IH]; intros lines; simpl.
  - by rewrite app_nil_r.
  - rewrite (Hline _ Hrow), IH, <- app_assoc. reflexivity.
Qed.

End display_record.

(** X17. When an entry of the sentence history lacks a column, the display
    stops with the [KeyError] of the first column that is missing: the
    labels and the heading are in the frame, the tree holds the lines of the
    entries before that one and is not placed, and the incarceration history
    is not shown. *)
Theorem display_missing_column details good item rest done c after fr :
  item_get "Current Prison Sentence History" details
    = Some (VRows (good ++ item :: rest)) →
  Forall (complete sentence_columns) good →
  sentence_columns = done ++ c :: after →
  complete done item → item !! c = None →
  display_inmate_details details fr
  = (Raise (KeyError c),
     label_rows 0 (scalars details)
     ++ [ Label "Current Prison Sentence History:"
            (Place 0 (length (scalars details)) 1);
          Treeview sentence_columns
            ((fun m => (fun col => default EmptyString (m !! col)) <$> sentence_columns)
               <$> good)
            None ]).
Proof.
  intros Hget Hgood Hcols Hdone Hc.
  unfold display_inmate_details, history_table.
  rewrite scalar_labels_rows, Hget. simpl fst. simpl snd.
  rewrite (insert_lines_missing sentence_columns good item rest (KeyError c) Hgood).
  - simpl. by rewrite <- app_assoc.
  - rewrite Hcols. by apply line_of_missing.
Qed.

Lemma display_missing_column_witness :
  (display_inmate_details
     [ ("DC Number", VStr "123456");
       ("Current Prison Sentence History",
        VRows [Pages.jane_sentence; delete "County" Pages.jane_sentence]) ]
     []).1
  = Raise (KeyError "County").
Proof.
  erewrite (display_missing_column _ [Pages.jane_sentence]
              (delete "County" Pages.jane_sentence) []
              ["Offense Date"; "Offense"; "Sentence Date"] "County"
              ["Case Number"; "Prison Sentence Length"]).
  - reflexivity.
  - reflexivity.
  - repeat constructor; eexists; vm_compute; reflexivity.
  - reflexivity.
  - repeat constructor; eexists; vm_compute; reflexivity.
  - vm_compute. reflexivity.
Defined.

(** ** More on the key, the first match and the accepted request *)

(** X18. The page is not checked against the key: a page that gives a
    record for one key gives, for any other key, the same record with only
    [DC Number] changed to that key. *)
Theorem key_not_checked soup dc1 dc2 d :
  inmate_details_of_soup soup dc1 = Ret (PDict d) → d ≠ ∅ →
  inmate_details_of_soup soup dc2 = Ret (PDict (<["DC Number" := VStr dc2]> d)).
Proof.
  intros H Hd. apply extraction_inv in H as [[-> _]|H]; [done|].
  destruct H as (name & race & sex & birth & al & sh & ih & -> & Hm
                 & Hname & Hn & Hrace & Hr & Hsex & Hbirth & Hsh & Hal & Hih).
  apply labelled_value_Ret in Hname, Hrace, Hsex, Hbirth.
  rewrite (extraction_from_fields _ dc2 _ _ _ _ Hm Hname Hn Hrace Hr Hsex Hbirth).
  rewrite Hsh. simpl.
  unfold alias_text, alias_block in Hal.
  destruct (find (with_id "div" DIV_ALIAS) soup) as [ad|]; [simpl in *|done].
  destruct (find (named "p") ad.1) as [p|]; [simpl in *|done].
  injection Hal as <-. rewrite Hih. simpl. reflexivity.
Qed.

Lemma key_not_checked_witness :
  inmate_details_of_soup Pages.jane_page "999999"
  = Ret (PDict (<["DC Number" := VStr "999999"]> Pages.jane_record)).
Proof.
  apply (key_not_checked Pages.jane_page "123456" "999999").
  - vm_compute. reflexivity.
  - vm_compute. discriminate.
Defined.

(** X19. When several documents are stored under the key, a call with a
    dictionary whose field names are plain changes the first of them only:
    it gets the fields of the dictionary, and the others stay as they are,
    in their order. *)
Theorem upsert_updates_first_only r k w d others :
  plain_fields r →
  r !! "DC Number" = Some k → store_fault w = None →
  Mongo.find_docs "DC Number" k (collection w) = d :: others →
  Mongo.find_docs "DC Number" k (collection (store_inmate_details r w).2)
  = Mongo.set_fields r d :: others.
Proof.
  intros _ Hk Hup Hdocs.
  rewrite store_collection, Hk, Hup.
  rewrite (find_docs_update_same _ _ _ _ Hk), Hdocs.
  assert (Mongo.matches "DC Number" k d = true) as Hd.
  { assert (d ∈ Mongo.find_docs "DC Number" k (collection w)) as Hin
      by (rewrite Hdocs; apply list_elem_of_here).
    unfold Mongo.find_docs in Hin. apply list_elem_of_In in Hin.
    apply List.filter_In in Hin. tauto. }
  unfold Mongo.update_one. simpl. by rewrite Hd.
Qed.

Lemma upsert_updates_first_only_witness :
  let w := set_collection (fun _ => [Pages.with_alias; Pages.without_alias])
             (Pages.idle (Pages.serve "123456" Pages.jane_page) None) in
  Mongo.find_docs "DC Number" (VStr "123456")
    (collection (store_inmate_details Pages.jane_record w).2)
  = [Mongo.set_fields Pages.jane_record Pages.with_alias; Pages.without_alias].
Proof.
  apply (upsert_updates_first_only Pages.jane_record (VStr "123456"));
    [exact (record_plain _ jane_is_record)|reflexivity..].
Defined.

(** X20. A request with a key that is not empty, followed by the run of its
    thread, ends with no thread pending and exactly one more callback in the
    queue; nothing was shown in between. *)
Theorem accepted_request_one_callback dc w :
  dc ≠ EmptyString → threads w = [] →
  let w' := run_thread (fetch_and_display_inmate_details dc w) in
  threads w' = []
  ∧ screen w' = screen w
  ∧ ∃ cb, after_queue w' = after_queue w ++ [cb].
Proof.
  intros Hdc Hth. cbn zeta.
  rewrite (key_starts_thread _ _ Hdc). unfold run_thread. simpl.
  rewrite Hth. simpl. rewrite worker_run. cbn zeta.
  destruct (responses _ (detail_url dc)) as [soup|e]; simpl; [|eauto].
  destruct (inmate_details_of_soup soup dc) as [[|d]|e] eqn:Hrun; simpl; eauto.
  case_bool_decide as Hd; simpl; [eauto|].
  rewrite (extracted_key _ _ _ Hrun Hd).
  unfold stored. destruct (store_fault _); simpl; eauto.
Qed.

Lemma accepted_request_one_callback_witness :
  threads (run_thread (fetch_and_display_inmate_details "123456"
             (Pages.idle (Pages.serve "123456" Pages.no_race_page) None))) = [].
Proof.
  apply (accepted_request_one_callback "123456"
           (Pages.idle (Pages.serve "123456" Pages.no_race_page) None)).
  - discriminate.
  - reflexivity.
Defined.
